(** * FraGG 3.0 eco-rating: advantage tracker and rating composer

    A shallow embedding of
    - [parser/advantage_tracker.go]: the per-side FIFO ledger of man-advantage
      slots;
    - [rating/rating.go] with the constants of [rating/weights.go]: the
      HLTV-3.0-style composite rating;
    - the alternate, linear implementation of the same two entry points.

    Go's [int] is a 64-bit two's-complement integer, modelled as [Z] with the
    wrap-around written out where the code does arithmetic on it; [uint64] and
    the [byte]-sized [common.Team] are modelled as [N]; [float64] is the
    kernel's binary64 type [float], whose operations round exactly as the Go
    ones do when no multiply-add is fused (amd64). *)

From stdpp Require Import base list gmap strings.
From Stdlib Require Import ZArith Floats.

Set Warnings "-inexact-float".

(** ** demoinfocs [common.Team] *)

Module common.

(** [type Team byte] with its four named values. *)
Definition Team : Type := N.

Definition TeamSpectators : Team := 1%N.
Definition TeamTerrorists : Team := 2%N.
Definition TeamCounterTerrorists : Team := 3%N.

End common.

(** ** Go's [int], [float64] and package [math] *)

Module math.

Local Open Scope float_scope.

(** Two's-complement wrap-around of 64-bit [int] arithmetic. *)
Definition wrap64 (z : Z) : Z :=
  ((z + 2 ^ 63) mod 2 ^ 64 - 2 ^ 63)%Z.

Definition MinInt64 : Z := (- 2 ^ 63)%Z.
Definition MaxInt64 : Z := (2 ^ 63 - 1)%Z.

(** The conversion [float64(n)] of an integer: the nearest binary64 value,
    ties to even. *)
Definition float64 (n : Z) : float :=
  SF2Prim (binary_normalize prec emax n 0 false).

(** [math.Signbit], used by [Max] and [Min] on zeros only. *)
Definition Signbit (x : float) : bool := get_sign x.

(** [math.Max] with its special cases:
    Max(x, +Inf) = Max(+Inf, x) = +Inf, Max(x, NaN) = Max(NaN, x) = NaN,
    Max(+0, ±0) = Max(±0, +0) = +0, Max(-0, -0) = -0. *)
Definition Max (x y : float) : float :=
  if (x =? infinity) || (y =? infinity) then infinity
  else if is_nan x || is_nan y then nan
  else if (x =? 0) && (x =? y) then (if Signbit x then y else x)
  else if y <? x then x
  else y.

(** [math.Min] with its special cases:
    Min(x, -Inf) = Min(-Inf, x) = -Inf, Min(x, NaN) = Min(NaN, x) = NaN,
    Min(-0, ±0) = Min(±0, -0) = -0. *)
Definition Min (x y : float) : float :=
  if (x =? neg_infinity) || (y =? neg_infinity) then neg_infinity
  else if is_nan x || is_nan y then nan
  else if (x =? 0) && (x =? y) then (if Signbit x then x else y)
  else if x <? y then x
  else y.

(** The special cases of [math.Pow] that its documentation fixes and that
    need no part of its general algorithm: Pow(x, ±0) = 1, Pow(1, y) = 1,
    Pow(x, 1) = x, Pow(NaN, y) = Pow(x, NaN) = NaN, Pow(±0, y) = +0 for
    0 < y < 1, and Pow(x, y) = NaN for finite x < 0 and 0 < y < 1 or
    1 < y < 2 (a finite y that is not an integer). [None] elsewhere. *)
Definition PowSpecial (x y : float) : option float :=
  if y =? 0 then Some 1
  else if x =? 1 then Some 1
  else if y =? 1 then Some x
  else if is_nan x || is_nan y then Some nan
  else if (x =? 0) && (0 <? y) && (y <? 1) then Some 0
  else if (x <? 0) && negb (x =? neg_infinity)
          && (((0 <? y) && (y <? 1)) || ((1 <? y) && (y <? 2)))
       then Some nan
  else None.

(** [PowSpecial] made total, for evaluating the rating at inputs that reach
    [math.Pow] on its special cases only. *)
Definition PowDoc (x y : float) : float := default nan (PowSpecial x y).

(** Bounds that [math.Max lo (math.Min hi _)] can clamp to: two finite,
    non-zero numbers in order. *)
Definition clampBounds (lo hi : float) : Prop :=
  is_nan lo = false ∧ is_nan hi = false
  ∧ (lo =? 0) = false ∧ (hi =? 0) = false
  ∧ (lo =? infinity) = false ∧ (hi =? infinity) = false
  ∧ (lo =? neg_infinity) = false ∧ (hi =? neg_infinity) = false
  ∧ (lo <=? hi) = true.

End math.

(** ** [model/player_stats.go] *)

Module model.

(** A [[6]int], indexed by the number of kills in a round. *)
Record Hist6 : Type := mkHist6 {
  h0 : Z; h1 : Z; h2 : Z; h3 : Z; h4 : Z; h5 : Z
}.

(** [m[i]] for an index in range. *)
Definition at6 (m : Hist6) (i : nat) : Z :=
  match i with
  | 0 => h0 m | 1 => h1 m | 2 => h2 m | 3 => h3 m | 4 => h4 m | _ => h5 m
  end.

(** The fields of [PlayerStats] that the rating functions read. *)
Record PlayerStats : Type := mkPlayerStats {
  RoundsPlayed : Z;
  Kills : Z;
  Deaths : Z;
  Damage : Z;
  OpeningKills : Z;
  TradedDeaths : Z;
  MultiKills : Hist6;
  MultiKillsRaw : Hist6;
  RoundsWithMultiKill : Z;
  KAST : float;
  EcoKillValue : float;
  RoundSwing : float;
  ClutchRounds : Z;
  ClutchWins : Z;
  OpeningAttempts : Z;
  OpeningSuccesses : Z;
  RoundsWonAfterOpening : Z;
  TradeKills : Z;
  SavedTeammate : Z;
  UtilityDamage : Z;
  FlashAssists : Z;
  EnemyFlashDuration : float;
  AWPDeathsNoKill : Z
}.

(** The histogram [m] with its entries 0 and 1 replaced. *)
Definition setLow (m : Hist6) (a b : Z) : Hist6 :=
  mkHist6 a b (h2 m) (h3 m) (h4 m) (h5 m).

(** The record [p] with its two histograms replaced. *)
Definition withHist (p : PlayerStats) (m mraw : Hist6) : PlayerStats :=
  {| RoundsPlayed := RoundsPlayed p; Kills := Kills p; Deaths := Deaths p;
     Damage := Damage p; OpeningKills := OpeningKills p;
     TradedDeaths := TradedDeaths p; MultiKills := m; MultiKillsRaw := mraw;
     RoundsWithMultiKill := RoundsWithMultiKill p; KAST := KAST p;
     EcoKillValue := EcoKillValue p; RoundSwing := RoundSwing p;
     ClutchRounds := ClutchRounds p; ClutchWins := ClutchWins p;
     OpeningAttempts := OpeningAttempts p;
     OpeningSuccesses := OpeningSuccesses p;
     RoundsWonAfterOpening := RoundsWonAfterOpening p;
     TradeKills := TradeKills p; SavedTeammate := SavedTeammate p;
     UtilityDamage := UtilityDamage p; FlashAssists := FlashAssists p;
     EnemyFlashDuration := EnemyFlashDuration p;
     AWPDeathsNoKill := AWPDeathsNoKill p |}.

End model.

(** ** [rating/weights.go] and [rating/rating.go] *)

Module rating.

Import math model.
Local Open Scope float_scope.

Definition BaselineKPR : float := 0.72.
Definition BaselineDPR : float := 0.68.
Definition BaselineADR : float := 77.0.
Definition BaselineKAST : float := 0.72.

Definition EcoKillPistolVsRifle : float := 1.80.
Definition EcoKillEcoVsForce : float := 1.50.
Definition EcoKillForceVsFullBuy : float := 1.25.
Definition EcoKillSlightDisadvantage : float := 1.10.
Definition EcoKillEqual : float := 1.00.
Definition EcoKillSlightAdvantage : float := 0.95.
Definition EcoKillAdvantage : float := 0.85.
Definition EcoKillRifleVsPistol : float := 0.70.

Definition EcoDeathToPistol : float := 1.60.
Definition EcoDeathToEco : float := 1.40.
Definition EcoDeathToForceBuy : float := 1.20.
Definition EcoDeathSlightAdvantage : float := 1.10.
Definition EcoDeathEqual : float := 1.00.
Definition EcoDeathSlightDisadvantage : float := 0.95.
Definition EcoDeathDisadvantage : float := 0.85.
Definition EcoDeathPistolVsRifle : float := 0.70.

Definition MinRating : float := 0.20.
Definition MaxRating : float := 3.00.

Definition TradeWindowTicks : Z := 320.

Definition FirstHalfPistolRound : Z := 1.
Definition SecondHalfPistolRound : Z := 13.
Definition RoundsPerHalf : Z := 12.
Definition RegulationRounds : Z := 24.
Definition OvertimeLength : Z := 6.
Definition TickRate : Z := 64.

(** The kill tiers and the death tiers, in the order of their declaration:
    from the largest attacker (resp. killer) disadvantage to the largest
    advantage. *)
Definition ecoKillTiers : list float :=
  [EcoKillPistolVsRifle; EcoKillEcoVsForce; EcoKillForceVsFullBuy;
   EcoKillSlightDisadvantage; EcoKillEqual; EcoKillSlightAdvantage;
   EcoKillAdvantage; EcoKillRifleVsPistol].

Definition ecoDeathTiers : list float :=
  [EcoDeathToPistol; EcoDeathToEco; EcoDeathToForceBuy;
   EcoDeathSlightAdvantage; EcoDeathEqual; EcoDeathSlightDisadvantage;
   EcoDeathDisadvantage; EcoDeathPistolVsRifle].

(** Each element strictly above the next one. *)
Fixpoint strictly_decreasing (l : list float) : bool :=
  match l with
  | x :: (y :: _) as l' => (y <? x) && strictly_decreasing l'
  | _ => true
  end.

Definition IsPistolRound (roundNumber : Z) : bool :=
  if (roundNumber =? FirstHalfPistolRound)%Z
     || (roundNumber =? SecondHalfPistolRound)%Z then true
  else if (RegulationRounds <? roundNumber)%Z
          && (Z.rem (wrap64 (wrap64 (roundNumber - RegulationRounds) - 1))
                    OvertimeLength =? 0)%Z then true
  else false.

(** The loop [for i := 2; i <= 5; i++ { total += m[i] * weights[i] }]. *)
Definition sumLoop (m weights : Hist6) : Z :=
  foldl (λ total i, wrap64 (total + wrap64 (at6 m i * at6 weights i))) 0%Z
        (seq 2 4).

(** The local table [weights] of [sumMulti]:
    0, 0, double = 1, triple = 3, quad = 7, ace = 15. *)
Definition weights : Hist6 := mkHist6 0 0 1 3 7 15.

Definition sumMulti (m : Hist6) : Z :=
  sumLoop m weights.

(** The constants of [rating/weights.go] that [ComputeFinalRating] reads and
    whose declarations are not part of the sources at hand: the nine
    component weights and six baselines. They are a parameter of the
    formula. *)
Record Tuning : Type := mkTuning {
  WeightKillRating : float;
  WeightDeathRating : float;
  WeightADRRating : float;
  WeightSwingRating : float;
  WeightMultiKillRating : float;
  WeightKASTRating : float;
  WeightOpeningRating : float;
  WeightTradeRating : float;
  WeightUtilityRating : float;
  BaselineMultiKill : float;
  BaselineOpeningSuccessRate : float;
  BaselineTradeKillsPerRound : float;
  BaselineUtilityDamage : float;
  BaselineFlashAssists : float;
  BaselineEnemyFlashDur : float
}.

(** The local variables of [ComputeSideRating] that enter its final sum. *)
Record SideParts : Type := mkSideParts {
  killRating : float;
  deathRating : float;
  adrRating : float;
  swingRating : float;
  multiKillRating : float;
  kastRating : float;
  clutchModifier : float
}.

(** The local variables of [ComputeFinalRating] that enter its final sum:
    those of the per-side formula and four more. *)
Record FinalParts : Type := mkFinalParts {
  perSide : SideParts;
  openingRating : float;
  tradeRating : float;
  utilityRating : float;
  awpPenalty : float
}.

Section Formula.

(** [math.Pow]. *)
Variable Pow : float → float → float.
Variable K : Tuning.

(** [ComputeFinalRating] from after its guard up to "Combine Components". *)
Definition finalParts (p : PlayerStats) (rounds : float) : FinalParts :=
  (* Component 1: Kill Rating *)
  let ecoKPR := EcoKillValue p / rounds in
  let killRatio := ecoKPR / BaselineKPR in
  let killRating :=
    if 1.5 <=? killRatio then 1.0 + (killRatio - 1.0) * 1.3
    else if 1.2 <=? killRatio then 1.0 + (killRatio - 1.0) * 0.7
    else if 0.8 <=? killRatio then Pow killRatio 0.9
    else Pow killRatio 1.1 in
  (* Component 2: Death Rating *)
  let dpr := float64 (Deaths p) / rounds in
  let deathRatio := dpr / BaselineDPR in
  let deathRating :=
    if deathRatio <=? 0.5 then 2.0 - (deathRatio * 0.2)
    else if deathRatio <=? 0.8 then 1.7 - (deathRatio * 0.4)
    else if deathRatio <=? 1.0 then 1.4 - (deathRatio * 0.3)
    else if deathRatio <=? 1.3 then 1.0 / Pow deathRatio 1.0
    else 1.0 / Pow deathRatio 1.2 in
  let deathRating := Max 0.3 (Min 1.9 deathRating) in
  (* Component 3: ADR Rating *)
  let adr := float64 (Damage p) / rounds in
  let adrRatio := adr / BaselineADR in
  let adrRating :=
    if 1.4 <=? adrRatio then 0.8 + (adrRatio * 0.6)
    else if 1.0 <=? adrRatio then 0.7 + (adrRatio * 0.5)
    else if 0.8 <=? adrRatio then 0.4 + (adrRatio * 0.6)
    else 0.3 + (adrRatio * 0.5) in
  (* Component 4: Round Swing Rating *)
  let avgSwing := RoundSwing p / rounds in
  let swingRating :=
    if 0.05 <=? avgSwing then 1.0 + (avgSwing / 0.15) * 0.4
    else if 0 <=? avgSwing then 1.0 + (avgSwing / 0.10) * 0.2
    else 1.0 + (avgSwing / 0.10) * 0.3 in
  let swingRating := Max 0.6 (Min 1.4 swingRating) in
  (* Component 5: Multi-Kill Rating *)
  let multiKillBonus := float64 (sumMulti (MultiKills p)) / rounds in
  let multiKillRating :=
    Min (Pow (multiKillBonus / BaselineMultiKill K) 0.8) 2.0 in
  let overallPerformance :=
    (ecoKPR / BaselineKPR + (adr / BaselineADR) + KAST p / BaselineKAST)
    / 3.0 in
  let multiKillRating :=
    if 1.0 <? multiKillRating then
      let penaltyFactor := Pow (Min 1.0 overallPerformance) 2 in
      1.0 + (multiKillRating - 1.0) * penaltyFactor
    else multiKillRating in
  (* Component 6: KAST Rating *)
  let kastRatio := KAST p / BaselineKAST in
  let kastRating :=
    if 1.2 <=? kastRatio then 1.0 + (kastRatio - 1.0) * 0.6
    else if 0.9 <=? kastRatio then kastRatio
    else Pow kastRatio 1.2 in
  (* Component 7: Opening Duel Rating *)
  let openingRating :=
    if (0 <? OpeningAttempts p)%Z then
      let successRate :=
        float64 (OpeningSuccesses p) / float64 (OpeningAttempts p) in
      let successRatio := successRate / BaselineOpeningSuccessRate K in
      let winConversion :=
        if (0 <? OpeningSuccesses p)%Z
        then float64 (RoundsWonAfterOpening p) / float64 (OpeningSuccesses p)
        else 0.0 in
      let openingRating := successRatio * 0.7 + winConversion * 0.6 in
      Max 0.5 (Min 1.6 openingRating)
    else 1.0 in
  (* Component 8: Trade Efficiency Rating *)
  let tradeRating := 1.0 in
  let tradeKillsPerRound := float64 (TradeKills p) / rounds in
  let tradeKillRatio := tradeKillsPerRound / BaselineTradeKillsPerRound K in
  let tradeRating := tradeRating + (tradeKillRatio - 1.0) * 0.3 in
  let tradeRating :=
    if (0 <? Deaths p)%Z then
      let tradedPct := float64 (TradedDeaths p) / float64 (Deaths p) in
      tradeRating + tradedPct * 0.2
    else tradeRating in
  let savesPerRound := float64 (SavedTeammate p) / rounds in
  let tradeRating := tradeRating + savesPerRound * 1.5 in
  let tradeRating := Max 0.6 (Min 1.5 tradeRating) in
  (* Component 9: Utility Rating *)
  let utilDmgPerRound := float64 (UtilityDamage p) / rounds in
  let utilDmgRatio := utilDmgPerRound / BaselineUtilityDamage K in
  let flashAssistsPerRound := float64 (FlashAssists p) / rounds in
  let flashAssistRatio := flashAssistsPerRound / BaselineFlashAssists K in
  let enemyFlashPerRound := EnemyFlashDuration p / rounds in
  let enemyFlashRatio := enemyFlashPerRound / BaselineEnemyFlashDur K in
  let utilityScore :=
    utilDmgRatio * 0.4 + flashAssistRatio * 0.3 + enemyFlashRatio * 0.3 in
  let utilityRating := 0.7 + utilityScore * 0.3 in
  let utilityRating := Max 0.5 (Min 1.4 utilityRating) in
  (* Proportional clutch modifier *)
  let clutchModifier :=
    if (0 <? ClutchRounds p)%Z then
      let clutchWinRate :=
        float64 (ClutchWins p) / float64 (ClutchRounds p) in
      if clutchWinRate <? 0.3
      then - float64 (ClutchRounds p) * (0.3 - clutchWinRate) * 0.04
      else float64 (ClutchWins p) * 0.015
    else 0.0 in
  (* AWP economy penalty *)
  let awpPenalty :=
    if (0 <? AWPDeathsNoKill p)%Z
    then float64 (AWPDeathsNoKill p) / rounds * 0.12
    else 0.0 in
  {| perSide :=
       {| killRating := killRating; deathRating := deathRating;
          adrRating := adrRating; swingRating := swingRating;
          multiKillRating := multiKillRating; kastRating := kastRating;
          clutchModifier := clutchModifier |};
     openingRating := openingRating; tradeRating := tradeRating;
     utilityRating := utilityRating; awpPenalty := awpPenalty |}.

(** The sum of "Combine Components", before the clamp. *)
Definition finalSum (c : FinalParts) : float :=
  killRating (perSide c) * WeightKillRating K
  + deathRating (perSide c) * WeightDeathRating K
  + adrRating (perSide c) * WeightADRRating K
  + swingRating (perSide c) * WeightSwingRating K
  + multiKillRating (perSide c) * WeightMultiKillRating K
  + kastRating (perSide c) * WeightKASTRating K
  + openingRating c * WeightOpeningRating K
  + tradeRating c * WeightTradeRating K
  + utilityRating c * WeightUtilityRating K
  + clutchModifier (perSide c)
  - awpPenalty c.

Definition ComputeFinalRating (p : PlayerStats) : float :=
  let rounds := float64 (RoundsPlayed p) in
  if rounds =? 0 then 0
  else
    let rating := finalSum (finalParts p rounds) in
    Max MinRating (Min MaxRating rating).

(** [ComputeSideRating] from after its guard up to "Combine Components".
    The parameter [kills] is not read. *)
Definition sideParts (roundsF : float) (kills deaths damage : Z)
    (ecoKillValue roundSwing kast : float) (multiKills : Hist6)
    (clutchRounds clutchWins : Z) : SideParts :=
  (* Component 1: Kill Rating *)
  let ecoKPR := ecoKillValue / roundsF in
  let killRatio := ecoKPR / BaselineKPR in
  let killRating :=
    if 1.5 <=? killRatio then 1.0 + (killRatio - 1.0) * 1.3
    else if 1.2 <=? killRatio then 1.0 + (killRatio - 1.0) * 0.7
    else if 0.8 <=? killRatio then Pow killRatio 0.9
    else Pow killRatio 1.1 in
  (* Component 2: Death Rating *)
  let dpr := float64 deaths / roundsF in
  let deathRatio := dpr / BaselineDPR in
  let deathRating :=
    if deathRatio <=? 0.5 then 2.0 - (deathRatio * 0.2)
    else if deathRatio <=? 0.8 then 1.7 - (deathRatio * 0.4)
    else if deathRatio <=? 1.0 then 1.4 - (deathRatio * 0.3)
    else if deathRatio <=? 1.3 then 1.0 / Pow deathRatio 1.0
    else 1.0 / Pow deathRatio 1.2 in
  let deathRating := Max 0.3 (Min 1.9 deathRating) in
  (* Component 3: ADR Rating *)
  let adr := float64 damage / roundsF in
  let adrRatio := adr / BaselineADR in
  let adrRating :=
    if 1.4 <=? adrRatio then 0.8 + (adrRatio * 0.6)
    else if 1.0 <=? adrRatio then 0.7 + (adrRatio * 0.5)
    else if 0.8 <=? adrRatio then 0.4 + (adrRatio * 0.6)
    else 0.3 + (adrRatio * 0.5) in
  (* Component 4: Round Swing Rating *)
  let avgSwing := roundSwing / roundsF in
  let swingRating :=
    if 0.05 <=? avgSwing then 1.0 + (avgSwing / 0.15) * 0.4
    else if 0 <=? avgSwing then 1.0 + (avgSwing / 0.10) * 0.2
    else 1.0 + (avgSwing / 0.10) * 0.3 in
  let swingRating := Max 0.6 (Min 1.4 swingRating) in
  (* Component 5: Multi-Kill Rating *)
  let multiKillBonus := float64 (sumMulti multiKills) / roundsF in
  let multiKillRating :=
    Min (Pow (multiKillBonus / BaselineMultiKill K) 0.8) 2.0 in
  let kastPct := kast / roundsF in
  let overallPerformance :=
    (ecoKPR / BaselineKPR + (adr / BaselineADR) + kastPct / BaselineKAST)
    / 3.0 in
  let multiKillRating :=
    if 1.0 <? multiKillRating then
      let penaltyFactor := Pow (Min 1.0 overallPerformance) 2 in
      1.0 + (multiKillRating - 1.0) * penaltyFactor
    else multiKillRating in
  (* Component 6: KAST Rating *)
  let kastRatio := kastPct / BaselineKAST in
  let kastRating :=
    if 1.2 <=? kastRatio then 1.0 + (kastRatio - 1.0) * 0.6
    else if 0.9 <=? kastRatio then kastRatio
    else Pow kastRatio 1.2 in
  (* Proportional clutch modifier *)
  let clutchModifier :=
    if (0 <? clutchRounds)%Z then
      let clutchWinRate := float64 clutchWins / float64 clutchRounds in
      if clutchWinRate <? 0.3
      then - float64 clutchRounds * (0.3 - clutchWinRate) * 0.04
      else float64 clutchWins * 0.015
    else 0.0 in
  {| killRating := killRating; deathRating := deathRating;
     adrRating := adrRating; swingRating := swingRating;
     multiKillRating := multiKillRating; kastRating := kastRating;
     clutchModifier := clutchModifier |}.

(** The per-side sum, with its literal weights. *)
Definition sideSum (c : SideParts) : float :=
  killRating c * 0.32
  + deathRating c * 0.18
  + adrRating c * 0.20
  + swingRating c * 0.12
  + multiKillRating c * 0.12
  + kastRating c * 0.06
  + clutchModifier c.

Definition ComputeSideRating (rounds kills deaths damage : Z)
    (ecoKillValue roundSwing kast : float) (multiKills : Hist6)
    (clutchRounds clutchWins : Z) : float :=
  let roundsF := float64 rounds in
  if roundsF =? 0 then 0
  else
    let rating :=
      sideSum (sideParts roundsF kills deaths damage ecoKillValue
                 roundSwing kast multiKills clutchRounds clutchWins) in
    Max MinRating (Min MaxRating rating).

End Formula.

(** [MinRating <= r && r <= MaxRating]; false on NaN. *)
Definition inRange (r : float) : bool :=
  (MinRating <=? r) && (r <=? MaxRating).

(** A player record that carries the arguments of [ComputeSideRating]: the
    counters of one side, the KAST count as the fraction [kast / rounds]
    that [PlayerStats.KAST] holds, and no opening duel, trade, utility or
    AWP event. *)
Definition sideRecord (rounds kills deaths damage : Z)
    (ecoKillValue roundSwing kast : float) (multiKills : Hist6)
    (clutchRounds clutchWins : Z) : PlayerStats :=
  {| RoundsPlayed := rounds; Kills := kills; Deaths := deaths;
     Damage := damage; OpeningKills := 0; TradedDeaths := 0;
     MultiKills := multiKills; MultiKillsRaw := multiKills;
     RoundsWithMultiKill := 0; KAST := kast / float64 rounds;
     EcoKillValue := ecoKillValue; RoundSwing := roundSwing;
     ClutchRounds := clutchRounds; ClutchWins := clutchWins;
     OpeningAttempts := 0; OpeningSuccesses := 0;
     RoundsWonAfterOpening := 0; TradeKills := 0; SavedTeammate := 0;
     UtilityDamage := 0; FlashAssists := 0; EnemyFlashDuration := 0;
     AWPDeathsNoKill := 0 |}.

(** The parts of the final formula when the four components that are not
    tracked per side sit at their neutral values: ratings 1.0, penalty 0. *)
Definition neutralParts (c : SideParts) : FinalParts :=
  {| perSide := c; openingRating := 1.0; tradeRating := 1.0;
     utilityRating := 1.0; awpPenalty := 0.0 |}.

(** A tuning for closed examples. The nine weights are the percentages that
    the comments of [ComputeFinalRating] give its components (28, 16, 18,
    10, 10, 6, 6, 4, 2) and the opening baseline is the 50% of its comment;
    the other five baselines are sample values. *)
Definition sampleTuning : Tuning :=
  {| WeightKillRating := 0.28; WeightDeathRating := 0.16;
     WeightADRRating := 0.18; WeightSwingRating := 0.10;
     WeightMultiKillRating := 0.10; WeightKASTRating := 0.06;
     WeightOpeningRating := 0.06; WeightTradeRating := 0.04;
     WeightUtilityRating := 0.02;
     BaselineMultiKill := 1.0; BaselineOpeningSuccessRate := 0.5;
     BaselineTradeKillsPerRound := 0.15; BaselineUtilityDamage := 5.0;
     BaselineFlashAssists := 0.05; BaselineEnemyFlashDur := 1.0 |}.

Definition noMultiKills : Hist6 := mkHist6 0 0 0 0 0 0.

(** One side of a sample match: 10 rounds, 9 kills, 6 deaths, 900 damage,
    eco kill value 9.0, round swing 0.4, 7.5 KAST rounds, no multi-kill and
    no clutch. On it the formula reaches [math.Pow] once, as Pow(0, 0.8). *)
Definition sampleSideRating (Pow : float → float → float) (K : Tuning) : float :=
  ComputeSideRating Pow K 10 9 6 900 9.0 0.4 7.5 noMultiKills 0 0.

Definition sampleSideRecord : PlayerStats :=
  sideRecord 10 9 6 900 9.0 0.4 7.5 noMultiKills 0 0.

(** The final formula on the parts of the sample side, the four other
    components at their neutral values. *)
Definition sampleNeutralRating (Pow : float → float → float) (K : Tuning) : float :=
  Max MinRating
    (Min MaxRating
       (finalSum K
          (neutralParts
             (sideParts Pow K (float64 10) 9 6 900 9.0 0.4 7.5 noMultiKills 0 0)))).

(** The record of a player who has played no round: every field zero. *)
Definition zeroStats : PlayerStats :=
  mkPlayerStats 0 0 0 0 0 0 noMultiKills noMultiKills
    0 0 0 0 0 0 0 0 0 0 0 0 0 0 0.

(** A one-round record with no event but the given KAST and eco kill value. *)
Definition oneRoundStats (kast ecoKillValue : float) : PlayerStats :=
  mkPlayerStats 1 0 0 0 0 0 noMultiKills noMultiKills
    0 kast ecoKillValue 0 0 0 0 0 0 0 0 0 0 0 0.

(** [r] is NaN or [lo <= r <= hi]. *)
Definition nanOrWithin (lo hi r : float) : bool :=
  is_nan r || ((lo <=? r) && (r <=? hi)).

End rating.

(** ** The linear implementation of package [rating] *)

Module rating_linear.

Import math model.
Local Open Scope float_scope.

Definition MinRating : float := rating.MinRating.
Definition MaxRating : float := rating.MaxRating.

(** The local table [weights] of this [sumMulti]:
    0, 0, double = 2, triple = 6, quad = 14, ace = 30. *)
Definition weights : Hist6 := mkHist6 0 0 2 6 14 30.

Definition sumMulti (m : Hist6) : Z :=
  rating.sumLoop m weights.

Definition ComputeFinalRating (p : PlayerStats) : float :=
  let rounds := float64 (RoundsPlayed p) in
  if rounds =? 0 then 0
  else
    (* core stats *)
    let kpr := float64 (Kills p) / rounds in
    let dpr := float64 (Deaths p) / rounds in
    let adr := float64 (Damage p) / rounds in
    let kast := KAST p in
    let avgSwing := RoundSwing p / rounds in
    let openingKillsPerRound := float64 (OpeningKills p) / rounds in
    let multiKillRoundsPerRound := float64 (RoundsWithMultiKill p) / rounds in
    let kprContrib :=
      if 0.7 <=? kpr then (kpr - 0.7) * 0.75 else (kpr - 0.7) * 0.55 in
    let dprContrib :=
      if dpr <=? 0.7 then (0.7 - dpr) * 0.15 else (0.7 - dpr) * 0.55 in
    let adrContrib :=
      if 75.0 <=? adr then (adr - 75.0) * 0.015 else (adr - 75.0) * 0.004 in
    let kastContrib :=
      if 0.70 <=? kast then (kast - 0.70) * 0.20 else (kast - 0.70) * 0.35 in
    let swingContrib :=
      if 0 <=? avgSwing then avgSwing * 0.75 else avgSwing * 1.00 in
    let impactContrib :=
      openingKillsPerRound * 0.3 + multiKillRoundsPerRound * 0.15 in
    let multiKillBonus := float64 (sumMulti (MultiKillsRaw p)) / rounds in
    let multiContrib := multiKillBonus * 0.015 in
    let rating :=
      1.0 + kprContrib + dprContrib + adrContrib + kastContrib
      + swingContrib + impactContrib + multiContrib in
    Max MinRating (Min MaxRating rating).

(** The parameters [ecoKillValue], [clutchRounds] and [clutchWins] are not
    read. *)
Definition ComputeSideRating (rounds kills deaths damage : Z)
    (ecoKillValue roundSwing kast : float) (multiKills : Hist6)
    (clutchRounds clutchWins : Z) : float :=
  let roundsF := float64 rounds in
  if roundsF =? 0 then 0
  else
    let kpr := float64 kills / roundsF in
    let dpr := float64 deaths / roundsF in
    let adr := float64 damage / roundsF in
    let kastPct := kast / roundsF in
    let avgSwing := roundSwing / roundsF in
    let kprContrib :=
      if 0.7 <=? kpr then (kpr - 0.7) * 0.75 else (kpr - 0.7) * 0.55 in
    let dprContrib :=
      if dpr <=? 0.7 then (0.7 - dpr) * 0.15 else (0.7 - dpr) * 0.55 in
    let adrContrib :=
      if 75.0 <=? adr then (adr - 75.0) * 0.015 else (adr - 75.0) * 0.004 in
    let kastContrib :=
      if 0.70 <=? kastPct then (kastPct - 0.70) * 0.20
      else (kastPct - 0.70) * 0.35 in
    let swingContrib :=
      if 0 <=? avgSwing then avgSwing * 0.75 else avgSwing * 1.00 in
    let multiKillBonus := float64 (sumMulti multiKills) / roundsF in
    let multiContrib := multiKillBonus * 0.015 in
    let rating :=
      1.0 + kprContrib + dprContrib + adrContrib + kastContrib
      + swingContrib + multiContrib in
    Max MinRating (Min MaxRating rating).

End rating_linear.

(** ** [parser/advantage_tracker.go] *)

Module parser.

Import common.

Record AdvantageSlot : Type := mkSlot {
  PlayerID : N;
  Side : Team
}.

(** Slots per team, oldest first. *)
Record AdvantageTracker : Type := mkTracker {
  tSlots : list AdvantageSlot;
  ctSlots : list AdvantageSlot
}.

Definition NewAdvantageTracker : AdvantageTracker :=
  {| tSlots := []; ctSlots := [] |}.

Definition Reset (tr : AdvantageTracker) : AdvantageTracker :=
  {| tSlots := []; ctSlots := [] |}.

Definition getSlots (tr : AdvantageTracker) (side : Team) : list AdvantageSlot :=
  if decide (side = TeamTerrorists) then tSlots tr else ctSlots tr.

Definition setSlots (tr : AdvantageTracker) (side : Team)
    (slots : list AdvantageSlot) : AdvantageTracker :=
  if decide (side = TeamTerrorists)
  then {| tSlots := slots; ctSlots := ctSlots tr |}
  else {| tSlots := tSlots tr; ctSlots := slots |}.

Definition addSlot (tr : AdvantageTracker) (side : Team)
    (slot : AdvantageSlot) : AdvantageTracker :=
  if decide (side = TeamTerrorists)
  then {| tSlots := tSlots tr ++ [slot]; ctSlots := ctSlots tr |}
  else {| tSlots := tSlots tr; ctSlots := ctSlots tr ++ [slot] |}.

(** The body of the [for _, slot := range slots] loop of [removePlayerSlots]. *)
Definition keepOther (playerID : N) (filtered : list AdvantageSlot)
    (slot : AdvantageSlot) : list AdvantageSlot :=
  if decide (PlayerID slot ≠ playerID) then filtered ++ [slot] else filtered.

Definition removePlayerSlots (tr : AdvantageTracker) (playerID : N)
    (side : Team) : AdvantageTracker :=
  let slots := getSlots tr side in
  let filtered := foldl (keepOther playerID) [] slots in
  setSlots tr side filtered.

(** A read of the Go map [seen]: a missing key reads as [false]. *)
Definition seenAt (seen : gmap N bool) (id : N) : bool :=
  default false (seen !! id).

(** The body of the loop of [RecordKill], on the pair of the two variables
    it updates. *)
Definition collect (killerID : N) (acc : list N * gmap N bool)
    (slot : AdvantageSlot) : list N * gmap N bool :=
  let '(survivalBeneficiaries, seen) := acc in
  if bool_decide (PlayerID slot ≠ killerID) && negb (seenAt seen (PlayerID slot))
  then (survivalBeneficiaries ++ [PlayerID slot], <[PlayerID slot := true]> seen)
  else (survivalBeneficiaries, seen).

(** Returns the beneficiaries together with the updated tracker. *)
Definition RecordKill (tr : AdvantageTracker) (killerID : N)
    (killerSide : Team) : list N * AdvantageTracker :=
  let slots := getSlots tr killerSide in
  let '(survivalBeneficiaries, _) := foldl (collect killerID) ([], ∅) slots in
  let tr' := addSlot tr killerSide {| PlayerID := killerID; Side := killerSide |} in
  (survivalBeneficiaries, tr').

Definition RecordDeath (tr : AdvantageTracker) (victimID : N)
    (victimSide : Team) : AdvantageTracker :=
  let slots := getSlots tr victimSide in
  let tr1 :=
    if decide (0 < length slots)%nat then setSlots tr victimSide (drop 1 slots)
    else tr in
  removePlayerSlots tr1 victimID victimSide.

(** The distinct elements of a list, each at the place of its first
    occurrence: the order in which the players' oldest slots were created. *)
Fixpoint distinct_in_order (l : list N) : list N :=
  match l with
  | [] => []
  | x :: l' => x :: filter (λ y, y ≠ x) (distinct_in_order l')
  end.

(** The loop invariant of [RecordKill]: the map [seen] holds exactly the ids
    collected so far. *)
Definition seen_tracks (seen : gmap N bool) (ben : list N) : Prop :=
  ∀ x, seenAt seen x = true ↔ x ∈ ben.

(** The other ledger than the one [side] selects. *)
Definition otherSlots (tr : AdvantageTracker) (side : Team) : list AdvantageSlot :=
  if decide (side = TeamTerrorists) then ctSlots tr else tSlots tr.

End parser.

(** ** Runs of the tracker *)

Module tracker_runs.

Import common parser.

(** The calls that the round handlers make on a tracker. *)
Inductive Event : Type :=
  | EvKill (killerID : N) (killerSide : Team)
  | EvDeath (victimID : N) (victimSide : Team)
  | EvReset.

Definition apply_event (tr : AdvantageTracker) (e : Event) : AdvantageTracker :=
  match e with
  | EvKill k s => (RecordKill tr k s).2
  | EvDeath v s => RecordDeath tr v s
  | EvReset => Reset tr
  end.

(** A sequence of calls, oldest first. *)
Definition run (tr : AdvantageTracker) (es : list Event) : AdvantageTracker :=
  foldl apply_event tr es.

(** The number of [RecordKill] calls in a sequence. *)
Definition isKill (e : Event) : bool :=
  match e with EvKill _ _ => true | _ => false end.

Definition kills (es : list Event) : nat :=
  length (filter (λ e, isKill e = true) es).

(** A tracker with three T slots, of players 1, 2 and 3, and no CT slot. *)
Definition sampleTracker : AdvantageTracker :=
  {| tSlots := [mkSlot 1 TeamTerrorists; mkSlot 2 TeamTerrorists;
                mkSlot 3 TeamTerrorists];
     ctSlots := [] |}.

(** Each ledger holds the slots of its own team: the [Side] of a slot in
    [tSlots] is [TeamTerrorists], the [Side] of a slot in [ctSlots] is not. *)
Definition ledgers_sided (tr : AdvantageTracker) : Prop :=
  (∀ sl, sl ∈ tSlots tr → Side sl = TeamTerrorists)
  ∧ (∀ sl, sl ∈ ctSlots tr → Side sl ≠ TeamTerrorists).

End tracker_runs.

(** ** The sheet export: map columns and the order of the rows *)

Module output.

Local Open Scope string_scope.

(** The fields of [AggregatedStats] that the export reads here. The type is
    declared outside the sources at hand; a nil Go map is [None]. *)
Record AggregatedStats : Type := mkAggregatedStats {
  Tier : string;
  FinalRating : float;
  MapRatings : option (gmap string float);
  MapGamesPlayed : option (gmap string Z)
}.

(** The [interface{}] values that the two getters return. *)
Inductive Cell : Type :=
  | CellString (s : string)
  | CellFloat (f : float)
  | CellInt (n : Z).

Definition getMapRating (p : AggregatedStats) (mapName : string) : Cell :=
  match MapRatings p with
  | None => CellString ""
  | Some ratings =>
      match ratings !! mapName with
      | Some rating => CellFloat rating
      | None => CellString ""
      end
  end.

Definition getMapGames (p : AggregatedStats) (mapName : string) : Cell :=
  match MapGamesPlayed p with
  | None => CellString ""
  | Some played =>
      match played !! mapName with
      | Some games => CellInt games
      | None => CellString ""
      end
  end.

(** The tier priority table of [UploadAggregatedStats]. *)
Definition tierOrder : gmap string Z :=
  list_to_map
    [("premier", 0%Z); ("elite", 1%Z); ("challenger", 2%Z);
     ("contender", 3%Z); ("prospect", 4%Z); ("recruit", 5%Z)].

(** [tierOrder[tier]]: a missing key reads as 0. *)
Definition tierRank (tier : string) : Z := default 0%Z (tierOrder !! tier).

(** The comparison passed to [sort.Slice]: by tier, then by final rating,
    higher first. *)
Definition less (pi pj : AggregatedStats) : bool :=
  let tierI := tierRank (Tier pi) in
  let tierJ := tierRank (Tier pj) in
  if negb (tierI =? tierJ)%Z then (tierI <? tierJ)%Z
  else (FinalRating pj <? FinalRating pi)%float.

End output.

(** * Properties *)

(** ** The advantage tracker *)


Section TrackerFacts.

Import common parser.

Implicit Types (tr : AdvantageTracker) (k v id : N) (s : Team).
Implicit Types (slots : list AdvantageSlot) (l ben : list N).

Lemma getSlots_setSlots tr s slots : getSlots (setSlots tr s slots) s = slots.
Proof. unfold getSlots, setSlots. by case_decide. Qed.

Lemma otherSlots_setSlots tr s slots :
  otherSlots (setSlots tr s slots) s = otherSlots tr s.
Proof. unfold otherSlots, setSlots. by case_decide. Qed.

Lemma getSlots_addSlot tr s slot :
  getSlots (addSlot tr s slot) s = getSlots tr s ++ [slot].
Proof. unfold getSlots, addSlot. by case_decide. Qed.

Lemma otherSlots_addSlot tr s slot :
  otherSlots (addSlot tr s slot) s = otherSlots tr s.
Proof. unfold otherSlots, addSlot. by case_decide. Qed.

(** The loop of [removePlayerSlots] is a filter that keeps the order. *)
Lemma foldl_keepOther v slots acc :
  foldl (keepOther v) acc slots
  = acc ++ filter (λ sl, PlayerID sl ≠ v) slots.
Proof.
  revert acc. induction slots as [|sl slots IH]; intros acc; simpl.
  - by rewrite app_nil_r.
  - rewrite IH. unfold keepOther. rewrite filter_cons.
    case_decide; [by rewrite <- app_assoc | done].
Qed.

Lemma getSlots_removePlayerSlots tr v s :
  getSlots (removePlayerSlots tr v s) s
  = filter (λ sl, PlayerID sl ≠ v) (getSlots tr s).
Proof.
  unfold removePlayerSlots. cbv zeta.
  by rewrite getSlots_setSlots, foldl_keepOther.
Qed.

Lemma otherSlots_removePlayerSlots tr v s :
  otherSlots (removePlayerSlots tr v s) s = otherSlots tr s.
Proof. unfold removePlayerSlots. cbv zeta. by rewrite otherSlots_setSlots. Qed.

Lemma filter_notin_nil l : filter (λ x, x ∉ @nil N) l = l.
Proof.
  induction l as [|y l IH]; [done|].
  rewrite filter_cons_True by apply not_elem_of_nil. by rewrite IH.
Qed.

Lemma filter_notin_snoc ben id l :
  filter (λ x, x ∉ ben ++ [id]) l
  = filter (λ x, x ∉ ben) (filter (λ y, y ≠ id) l).
Proof.
  rewrite list_filter_filter. apply list_filter_iff. intros x.
  rewrite not_elem_of_app, list_elem_of_singleton. tauto.
Qed.

Lemma filter_notin_absorb ben id l :
  id ∈ ben →
  filter (λ x, x ∉ ben) (filter (λ y, y ≠ id) l) = filter (λ x, x ∉ ben) l.
Proof.
  intros Hin. rewrite list_filter_filter. apply list_filter_iff. intros x.
  split; [tauto | intros Hx; split; [done | congruence]].
Qed.

Lemma seen_tracks_empty : seen_tracks ∅ [].
Proof.
  intros x. unfold seenAt. rewrite lookup_empty. simpl.
  split; [discriminate | by intros ?%elem_of_nil].
Qed.

Lemma seen_tracks_insert seen ben id :
  seen_tracks seen ben → seen_tracks (<[id := true]> seen) (ben ++ [id]).
Proof.
  intros Hs x. unfold seenAt. rewrite elem_of_app, list_elem_of_singleton.
  destruct (decide (id = x)) as [->|Hne].
  - rewrite lookup_insert_eq. simpl. tauto.
  - rewrite lookup_insert_ne by done. fold (seenAt seen x). rewrite (Hs x).
    split; [tauto | intros [?|?]; [done | congruence]].
Qed.

(** The loop of [RecordKill], from any point of its run. *)
Lemma foldl_collect k slots ben seen :
  seen_tracks seen ben →
  (foldl (collect k) (ben, seen) slots).1
  = ben ++ filter (λ x, x ∉ ben)
             (distinct_in_order (filter (λ x, x ≠ k) (PlayerID <$> slots))).
Proof.
  revert ben seen.
  induction slots as [|sl slots IH]; intros ben seen Hs.
  - simpl. by rewrite app_nil_r.
  - rewrite fmap_cons, filter_cons.
    change (foldl (collect k) (ben, seen) (sl :: slots))
      with (foldl (collect k) (collect k (ben, seen) sl) slots).
    destruct (decide (PlayerID sl ≠ k)) as [Hk|Hk].
    + destruct (seenAt seen (PlayerID sl)) eqn:Hseen.
      * replace (collect k (ben, seen) sl) with (ben, seen)
          by (unfold collect; by rewrite bool_decide_eq_true_2, Hseen).
        rewrite (IH _ _ Hs). apply (Hs (PlayerID sl)) in Hseen. simpl.
        rewrite filter_cons_False by tauto.
        by rewrite filter_notin_absorb.
      * replace (collect k (ben, seen) sl)
          with (ben ++ [PlayerID sl], <[PlayerID sl := true]> seen)
          by (unfold collect; by rewrite bool_decide_eq_true_2, Hseen).
        rewrite (IH _ _ (seen_tracks_insert _ _ _ Hs)).
        assert (PlayerID sl ∉ ben) as Hnot.
        { intros Hin. apply (Hs (PlayerID sl)) in Hin. congruence. }
        simpl. rewrite filter_cons_True by done.
        by rewrite <- app_assoc, filter_notin_snoc.
    + replace (collect k (ben, seen) sl) with (ben, seen)
        by (unfold collect; by rewrite bool_decide_eq_false_2).
      by apply IH.
Qed.

Lemma RecordKill_fst tr k s :
  (RecordKill tr k s).1
  = distinct_in_order (filter (λ x, x ≠ k) (PlayerID <$> getSlots tr s)).
Proof.
  unfold RecordKill. cbv zeta.
  pose proof (foldl_collect k (getSlots tr s) [] ∅ seen_tracks_empty) as H.
  destruct (foldl (collect k) ([], ∅) (getSlots tr s)) as [ben seen].
  simpl in *. rewrite H. apply filter_notin_nil.
Qed.

Lemma RecordKill_snd tr k s :
  (RecordKill tr k s).2 = addSlot tr s {| PlayerID := k; Side := s |}.
Proof.
  unfold RecordKill. cbv zeta.
  by destruct (foldl (collect k) ([], ∅) (getSlots tr s)).
Qed.

Lemma distinct_in_order_elem l x : x ∈ distinct_in_order l ↔ x ∈ l.
Proof.
  induction l as [|y l IH]; simpl; [done|].
  rewrite !elem_of_cons, list_elem_of_filter, IH.
  destruct (decide (x = y)); tauto.
Qed.

Lemma distinct_in_order_NoDup l : NoDup (distinct_in_order l).
Proof.
  induction l as [|y l IH]; simpl; [constructor|].
  apply NoDup_cons. split.
  - rewrite list_elem_of_filter. tauto.
  - by apply NoDup_filter.
Qed.

Lemma distinct_in_order_sublist l : distinct_in_order l `sublist_of` l.
Proof.
  induction l as [|y l IH]; simpl; [done|].
  apply sublist_skip. etrans; [apply sublist_filter | done].
Qed.

(** C2, as the code has it. [RecordKill tr k s] returns the distinct ids
    other than [k] that hold a slot on side [s], each at the place of its
    oldest slot, computed
    on the ledger as it was before the call; the call then appends one slot
    for [k] at the tail of that ledger and leaves the other ledger alone.
    After kills by [A] and by [B] on side [s], a kill by [C] on that side
    returns the distinct owners other than [C] of the ledger extended by the
    slots of [A] and [B]: on a ledger that was empty on side [s], and for
    three different players, that is [[A; B]]. *)
Theorem RecordKill_beneficiaries tr k s :
  let ids := PlayerID <$> getSlots tr s in
  let ben := (RecordKill tr k s).1 in
  let tr' := (RecordKill tr k s).2 in
  ben = distinct_in_order (filter (λ x, x ≠ k) ids)
  ∧ NoDup ben
  ∧ (∀ x, x ∈ ben ↔ x ≠ k ∧ x ∈ ids)
  ∧ ben `sublist_of` ids
  ∧ getSlots tr' s = getSlots tr s ++ [{| PlayerID := k; Side := s |}]
  ∧ otherSlots tr' s = otherSlots tr s
  ∧ (∀ A B C,
       (RecordKill (RecordKill (RecordKill tr A s).2 B s).2 C s).1
       = distinct_in_order (filter (λ x, x ≠ C) (ids ++ [A; B])))
  ∧ (∀ A B C, getSlots tr s = [] → B ≠ A → C ≠ A → C ≠ B →
       (RecordKill (RecordKill (RecordKill tr A s).2 B s).2 C s).1 = [A; B]).
Proof.
  cbv zeta. rewrite RecordKill_fst, RecordKill_snd.
  split_and!.
  - done.
  - apply distinct_in_order_NoDup.
  - intros x. by rewrite distinct_in_order_elem, list_elem_of_filter.
  - etrans; [apply distinct_in_order_sublist | apply sublist_filter].
  - apply getSlots_addSlot.
  - apply otherSlots_addSlot.
  - intros A B C.
    rewrite RecordKill_fst, !RecordKill_snd, !getSlots_addSlot.
    by rewrite !fmap_app, <- app_assoc.
  - intros A B C Hnil HBA HCA HCB.
    rewrite RecordKill_fst, !RecordKill_snd, !getSlots_addSlot, Hnil.
    simpl. rewrite !filter_cons, filter_nil. simpl.
    rewrite !decide_True by congruence. simpl.
    rewrite filter_cons, filter_nil. by rewrite decide_True.
Qed.

Lemma RecordKill_beneficiaries_witness :
  (RecordKill (RecordKill (RecordKill NewAdvantageTracker 11 TeamTerrorists).2
                 12 TeamTerrorists).2 13 TeamTerrorists).1 = [11%N; 12%N].
Proof.
  apply (RecordKill_beneficiaries NewAdvantageTracker 0 TeamTerrorists);
    [reflexivity | discriminate | discriminate | discriminate].
Defined.

Lemma getSlots_RecordDeath tr v s :
  getSlots (RecordDeath tr v s) s
  = filter (λ sl, PlayerID sl ≠ v) (drop 1 (getSlots tr s)).
Proof.
  unfold RecordDeath. cbv zeta. rewrite getSlots_removePlayerSlots.
  case_decide as Hlen.
  - by rewrite getSlots_setSlots.
  - destruct (getSlots tr s); [done | simpl in Hlen; lia].
Qed.

Lemma otherSlots_RecordDeath tr v s :
  otherSlots (RecordDeath tr v s) s = otherSlots tr s.
Proof.
  unfold RecordDeath. cbv zeta. rewrite otherSlots_removePlayerSlots.
  case_decide; [apply otherSlots_setSlots | done].
Qed.

(** C3. [RecordDeath tr v s] is the removal of the oldest slot of side [s]
    (when there is one) followed by [removePlayerSlots]: side [s] is left
    with the slots behind the head that [v] does not own, in their order,
    and the other side's ledger is unchanged. Of the slots owned by other
    players at most one is gone, and then it is the head. *)
Theorem RecordDeath_removes tr v s :
  let slots := getSlots tr s in
  let others := filter (λ sl, PlayerID sl ≠ v) in
  RecordDeath tr v s
    = removePlayerSlots
        (match slots with [] => tr | _ :: rest => setSlots tr s rest end) v s
  ∧ getSlots (RecordDeath tr v s) s = others (drop 1 slots)
  ∧ (∀ sl, sl ∈ getSlots (RecordDeath tr v s) s → PlayerID sl ≠ v)
  ∧ otherSlots (RecordDeath tr v s) s = otherSlots tr s
  ∧ others slots = others (take 1 slots) ++ getSlots (RecordDeath tr v s) s
  ∧ length (others slots) ≤ 1 + length (others (getSlots (RecordDeath tr v s) s)).
Proof.
  cbv zeta. rewrite getSlots_RecordDeath, otherSlots_RecordDeath.
  split_and!.
  - unfold RecordDeath. cbv zeta.
    by destruct (getSlots tr s).
  - done.
  - intros sl Hin. by apply list_elem_of_filter in Hin as [? _].
  - done.
  - by rewrite <- filter_app, take_drop.
  - rewrite list_filter_filter_l by done.
    rewrite <- (take_drop 1 (getSlots tr s)) at 1.
    rewrite filter_app, length_app.
    pose proof (length_filter (λ sl, PlayerID sl ≠ v) (take 1 (getSlots tr s))).
    pose proof (length_take_le (getSlots tr s) 1).
    destruct (getSlots tr s); simpl in *; lia.
Qed.




End TrackerFacts.

(** ** Order facts on binary64 values *)

Section FloatOrder.

Local Open Scope float_scope.

Lemma SFcompare_antisym (a b : spec_float) :
  SFcompare b a = CompOpp <$> SFcompare a b.
Proof.
  destruct a as [sa|sa| |sa ma ea], b as [sb|sb| |sb mb eb]; simpl;
    try done; try (by destruct sa); try (by destruct sb);
    try (by destruct sa, sb).
  f_equal. rewrite (Z.compare_antisym ea eb).
  destruct sa, sb; simpl; try done;
    destruct (ea ?= eb)%Z; simpl; try done;
    rewrite (Pos.compare_cont_antisym ma mb Eq); simpl;
    by destruct (Pos.compare_cont Eq mb ma).
Qed.

Lemma SFcompare_None (a b : spec_float) :
  SFcompare a b = None → a = S754_nan ∨ b = S754_nan.
Proof. destruct a, b; simpl; try discriminate; auto. Qed.

Lemma is_nan_spec (x : float) : is_nan x = true ↔ Prim2SF x = S754_nan.
Proof.
  unfold is_nan. rewrite eqb_spec. unfold SFeqb.
  destruct (Prim2SF x) as [s|s| |s m e]; simpl.
  - split; discriminate.
  - destruct s; split; discriminate.
  - done.
  - destruct s; rewrite Z.compare_refl, Pos.compare_cont_refl; simpl;
      split; discriminate.
Qed.

(** Two numbers are comparable: [x < y] fails only if [y <= x]. *)
Lemma ltb_false_leb (x y : float) :
  is_nan x = false → is_nan y = false → (x <? y) = false → (y <=? x) = true.
Proof.
  intros Hx Hy. rewrite ltb_spec, leb_spec. unfold SFltb, SFleb.
  rewrite (SFcompare_antisym (Prim2SF x) (Prim2SF y)).
  destruct (SFcompare (Prim2SF x) (Prim2SF y)) as [[]|] eqn:Hc; simpl; try done.
  apply SFcompare_None in Hc as [Hn|Hn]; apply is_nan_spec in Hn; congruence.
Qed.

Lemma eqb_infinity_ltb (x c : float) :
  (x =? infinity) = true → is_nan c = false → (c =? infinity) = false →
  (c <? x) = true.
Proof.
  rewrite !eqb_spec, ltb_spec. intros Hx Hc Hci.
  assert (Prim2SF c ≠ S754_nan) as Hnan.
  { intros Hn%is_nan_spec. congruence. }
  change (Prim2SF infinity) with (S754_infinity false) in *.
  unfold SFeqb, SFltb in *.
  destruct (Prim2SF x) as [s|[]| |[] m e]; simpl in Hx; try discriminate.
  destruct (Prim2SF c) as [s|[]| |[] m e]; simpl in *; done.
Qed.

(** [math.Min] and [math.Max] against the two rating bounds. *)
Lemma Min_MaxRating (x : float) :
  math.Min rating.MaxRating x
  = if x =? neg_infinity then neg_infinity
    else if is_nan x then nan
    else if rating.MaxRating <? x then rating.MaxRating
    else x.
Proof. reflexivity. Qed.

Lemma Max_MinRating (y : float) :
  math.Max rating.MinRating y
  = if y =? infinity then infinity
    else if is_nan y then nan
    else if y <? rating.MinRating then rating.MinRating
    else y.
Proof. reflexivity. Qed.

(** The final clamp: whatever the sum, the clamped value is NaN or lies
    between the two bounds. *)
Lemma clamp_inRange (x : float) :
  is_nan (math.Max rating.MinRating (math.Min rating.MaxRating x)) = false →
  rating.inRange (math.Max rating.MinRating (math.Min rating.MaxRating x)) = true.
Proof.
  rewrite Min_MaxRating.
  destruct (x =? neg_infinity) eqn:E1; [by vm_compute|].
  destruct (is_nan x) eqn:E2; [by vm_compute|].
  destruct (rating.MaxRating <? x) eqn:E3; [by vm_compute|].
  rewrite Max_MinRating, E2.
  destruct (x =? infinity) eqn:E4.
  { rewrite (eqb_infinity_ltb x rating.MaxRating) in E3; done. }
  destruct (x <? rating.MinRating) eqn:E5; [by vm_compute|].
  intros _. unfold rating.inRange.
  rewrite (ltb_false_leb x rating.MinRating), (ltb_false_leb rating.MaxRating x);
    done.
Qed.

End FloatOrder.

(** ** The rating composer *)

Section RatingFacts.

Import math model.
Local Open Scope float_scope.

Variable Pow : float → float → float.
Variable K : rating.Tuning.

Lemma final_clamped p :
  (float64 (RoundsPlayed p) =? 0) = false →
  rating.ComputeFinalRating Pow K p
  = Max rating.MinRating
      (Min rating.MaxRating
         (rating.finalSum K (rating.finalParts Pow K p (float64 (RoundsPlayed p))))).
Proof. intros H. unfold rating.ComputeFinalRating. cbv zeta. by rewrite H. Qed.

Lemma side_clamped rounds kills deaths damage eco swing kast mk cr cw :
  (float64 rounds =? 0) = false →
  rating.ComputeSideRating Pow K rounds kills deaths damage eco swing kast mk cr cw
  = Max rating.MinRating
      (Min rating.MaxRating
         (rating.sideSum
            (rating.sideParts Pow K (float64 rounds) kills deaths damage eco
               swing kast mk cr cw))).
Proof. intros H. unfold rating.ComputeSideRating. cbv zeta. by rewrite H. Qed.

Lemma linear_final_clamped p :
  (float64 (RoundsPlayed p) =? 0) = false →
  ∃ sum, rating_linear.ComputeFinalRating p
         = Max rating.MinRating (Min rating.MaxRating sum).
Proof.
  intros H. unfold rating_linear.ComputeFinalRating. cbv zeta. rewrite H.
  by eexists.
Qed.

Lemma linear_side_clamped rounds kills deaths damage eco swing kast mk cr cw :
  (float64 rounds =? 0) = false →
  ∃ sum, rating_linear.ComputeSideRating rounds kills deaths damage eco swing
           kast mk cr cw
         = Max rating.MinRating (Min rating.MaxRating sum).
Proof.
  intros H. unfold rating_linear.ComputeSideRating. cbv zeta. rewrite H.
  by eexists.
Qed.

(** C1, as the code has it. In both implementations, when the round count
    converts to a non-zero float (the guard of the function does not fire)
    and the result is a number, [ComputeFinalRating] and [ComputeSideRating]
    return a value [r] with [MinRating <= r <= MaxRating], whatever the other
    inputs, the weights and the results of [math.Pow] are. When the guard
    fires they return 0, which is below [MinRating]. *)
Theorem rating_within_bounds :
  (∀ p,
     (float64 (RoundsPlayed p) =? 0) = false →
     is_nan (rating.ComputeFinalRating Pow K p) = false →
     rating.inRange (rating.ComputeFinalRating Pow K p) = true)
  ∧ (∀ rounds kills deaths damage eco swing kast mk cr cw,
       (float64 rounds =? 0) = false →
       is_nan (rating.ComputeSideRating Pow K rounds kills deaths damage eco
                 swing kast mk cr cw) = false →
       rating.inRange (rating.ComputeSideRating Pow K rounds kills deaths
                         damage eco swing kast mk cr cw) = true)
  ∧ (∀ p,
       (float64 (RoundsPlayed p) =? 0) = false →
       is_nan (rating_linear.ComputeFinalRating p) = false →
       rating.inRange (rating_linear.ComputeFinalRating p) = true)
  ∧ (∀ rounds kills deaths damage eco swing kast mk cr cw,
       (float64 rounds =? 0) = false →
       is_nan (rating_linear.ComputeSideRating rounds kills deaths damage eco
                 swing kast mk cr cw) = false →
       rating.inRange (rating_linear.ComputeSideRating rounds kills deaths
                         damage eco swing kast mk cr cw) = true)
  ∧ (∀ p,
       (float64 (RoundsPlayed p) =? 0) = true →
       rating.ComputeFinalRating Pow K p = 0
       ∧ rating_linear.ComputeFinalRating p = 0)
  ∧ (∀ rounds kills deaths damage eco swing kast mk cr cw,
       (float64 rounds =? 0) = true →
       rating.ComputeSideRating Pow K rounds kills deaths damage eco swing
         kast mk cr cw = 0
       ∧ rating_linear.ComputeSideRating rounds kills deaths damage eco swing
           kast mk cr cw = 0)
  ∧ rating.inRange 0 = false.
Proof.
  split; [|split; [|split; [|split; [|split; [|split; [|reflexivity]]]]]].
  - intros p H. rewrite (final_clamped p H). apply clamp_inRange.
  - intros * H. rewrite (side_clamped _ _ _ _ _ _ _ _ _ _ H). apply clamp_inRange.
  - intros p H. destruct (linear_final_clamped p H) as [sum ->].
    apply clamp_inRange.
  - intros * H.
    destruct (linear_side_clamped rounds kills deaths damage eco swing kast mk
                cr cw H) as [sum ->].
    apply clamp_inRange.
  - intros p H.
    unfold rating.ComputeFinalRating, rating_linear.ComputeFinalRating.
    cbv zeta. rewrite H. split; reflexivity.
  - intros * H.
    unfold rating.ComputeSideRating, rating_linear.ComputeSideRating.
    cbv zeta. rewrite H. split; reflexivity.
Qed.

(** C4. With no round played both entry points of both implementations
    return 0: the guard returns before any quotient is formed, so the result
    depends on no other field, on no weight and on no result of [math.Pow]. *)
Theorem zero_rounds_rating_is_zero :
  (∀ p, RoundsPlayed p = 0%Z → rating.ComputeFinalRating Pow K p = 0)
  ∧ (∀ kills deaths damage eco swing kast mk cr cw,
       rating.ComputeSideRating Pow K 0 kills deaths damage eco swing kast mk
         cr cw = 0)
  ∧ (∀ p, RoundsPlayed p = 0%Z → rating_linear.ComputeFinalRating p = 0)
  ∧ (∀ kills deaths damage eco swing kast mk cr cw,
       rating_linear.ComputeSideRating 0 kills deaths damage eco swing kast mk
         cr cw = 0).
Proof.
  split_and!.
  - intros p H. unfold rating.ComputeFinalRating. by rewrite H.
  - done.
  - intros p H. unfold rating_linear.ComputeFinalRating. by rewrite H.
  - done.
Qed.

(** C5, as the code has it. On the record that carries its arguments,
    [ComputeSideRating] computes the same six component ratings and the same
    clutch modifier as [ComputeFinalRating]; it then clamps their sum under
    its own weights 0.32, 0.18, 0.20, 0.12, 0.12, 0.06, with no opening,
    trade, utility or AWP term, where [ComputeFinalRating] clamps the sum of
    all eleven parts under the configured weights. *)
Theorem side_rating_shares_components
    rounds kills deaths damage eco swing kast mk cr cw :
  let p := rating.sideRecord rounds kills deaths damage eco swing kast mk cr cw in
  let parts := rating.finalParts Pow K p (float64 rounds) in
  rating.sideParts Pow K (float64 rounds) kills deaths damage eco swing kast
    mk cr cw = rating.perSide parts
  ∧ rating.ComputeSideRating Pow K rounds kills deaths damage eco swing kast
      mk cr cw
    = (if float64 rounds =? 0 then 0
       else Max rating.MinRating
              (Min rating.MaxRating (rating.sideSum (rating.perSide parts))))
  ∧ rating.ComputeFinalRating Pow K p
    = (if float64 rounds =? 0 then 0
       else Max rating.MinRating
              (Min rating.MaxRating (rating.finalSum K parts))).
Proof. cbv zeta. split_and!; reflexivity. Qed.

(** The loop reads the entries 2 to 5 and nothing else. *)
Lemma sumLoop_unfold m w :
  rating.sumLoop m w
  = wrap64 (wrap64 (wrap64 (wrap64 (0 + wrap64 (h2 m * h2 w))
                              + wrap64 (h3 m * h3 w))
                      + wrap64 (h4 m * h4 w))
              + wrap64 (h5 m * h5 w)).
Proof. unfold rating.sumLoop. cbn [seq foldl at6]. reflexivity. Qed.

Lemma sumMulti_setLow m a b : rating.sumMulti (setLow m a b) = rating.sumMulti m.
Proof. unfold rating.sumMulti. by rewrite !sumLoop_unfold. Qed.

Lemma linear_sumMulti_setLow m a b :
  rating_linear.sumMulti (setLow m a b) = rating_linear.sumMulti m.
Proof. unfold rating_linear.sumMulti. by rewrite !sumLoop_unfold. Qed.

(** Reduce the projections of a [PlayerStats] given field by field. *)
Ltac stats_fields :=
  cbn [RoundsPlayed Kills Deaths Damage OpeningKills TradedDeaths MultiKills
       MultiKillsRaw RoundsWithMultiKill KAST EcoKillValue RoundSwing
       ClutchRounds ClutchWins OpeningAttempts OpeningSuccesses
       RoundsWonAfterOpening TradeKills SavedTeammate UtilityDamage
       FlashAssists EnemyFlashDuration AWPDeathsNoKill].

(** C10. In both implementations [sumMulti] gives weight 0 to the entries 0
    and 1 of the histogram and reads the entries 2 to 5 only: replacing the
    two low entries changes neither [sumMulti] nor any of the four ratings. *)
Theorem sumMulti_ignores_low_entries m a b :
  at6 rating.weights 0 = 0%Z ∧ at6 rating.weights 1 = 0%Z
  ∧ at6 rating_linear.weights 0 = 0%Z ∧ at6 rating_linear.weights 1 = 0%Z
  ∧ rating.sumMulti (setLow m a b) = rating.sumMulti m
  ∧ rating_linear.sumMulti (setLow m a b) = rating_linear.sumMulti m
  ∧ (∀ p a' b',
       rating.ComputeFinalRating Pow K
         (withHist p (setLow (MultiKills p) a b) (setLow (MultiKillsRaw p) a' b'))
       = rating.ComputeFinalRating Pow K p)
  ∧ (∀ p a' b',
       rating_linear.ComputeFinalRating
         (withHist p (setLow (MultiKills p) a b) (setLow (MultiKillsRaw p) a' b'))
       = rating_linear.ComputeFinalRating p)
  ∧ (∀ rounds kills deaths damage eco swing kast cr cw,
       rating.ComputeSideRating Pow K rounds kills deaths damage eco swing kast
         (setLow m a b) cr cw
       = rating.ComputeSideRating Pow K rounds kills deaths damage eco swing
           kast m cr cw)
  ∧ (∀ rounds kills deaths damage eco swing kast cr cw,
       rating_linear.ComputeSideRating rounds kills deaths damage eco swing kast
         (setLow m a b) cr cw
       = rating_linear.ComputeSideRating rounds kills deaths damage eco swing
           kast m cr cw).
Proof.
  pose proof (sumMulti_setLow m a b) as E.
  pose proof (linear_sumMulti_setLow m a b) as E'.
  do 4 (split; [reflexivity|]).
  split; [exact E|]. split; [exact E'|].
  split; [|split; [|split]].
  - intros [] a' b'.
    unfold withHist, rating.ComputeFinalRating, rating.finalParts. stats_fields.
    rewrite sumMulti_setLow. reflexivity.
  - intros [] a' b'.
    unfold withHist, rating_linear.ComputeFinalRating. stats_fields.
    rewrite linear_sumMulti_setLow. reflexivity.
  - intros *. unfold rating.ComputeSideRating, rating.sideParts.
    rewrite E. reflexivity.
  - intros *. unfold rating_linear.ComputeSideRating. rewrite E'. reflexivity.
Qed.

End RatingFacts.

(** ** Closed instances *)

Section RatingInstances.

Import math model.
Local Open Scope float_scope.

Lemma rating_within_bounds_witness :
  rating.inRange
    (rating.ComputeFinalRating PowDoc rating.sampleTuning
       (rating.oneRoundStats 0.75 1)) = true
  ∧ rating.inRange (rating.sampleSideRating PowDoc rating.sampleTuning) = true
  ∧ rating.inRange
      (rating_linear.ComputeFinalRating (rating.oneRoundStats 0.75 1)) = true
  ∧ rating.inRange
      (rating_linear.ComputeSideRating 10 9 6 900 9.0 0.4 7.5
         rating.noMultiKills 0 0) = true.
Proof.
  destruct (rating_within_bounds PowDoc rating.sampleTuning)
    as (H1 & H2 & H3 & H4 & _).
  split; [|split; [|split]].
  - apply (H1 (rating.oneRoundStats 0.75 1)); vm_compute; reflexivity.
  - apply (H2 10%Z 9%Z 6%Z 900%Z 9.0 0.4 7.5 rating.noMultiKills 0%Z 0%Z);
      vm_compute; reflexivity.
  - apply (H3 (rating.oneRoundStats 0.75 1)); vm_compute; reflexivity.
  - apply (H4 10%Z 9%Z 6%Z 900%Z 9.0 0.4 7.5 rating.noMultiKills 0%Z 0%Z);
      vm_compute; reflexivity.
Defined.

Lemma zero_rounds_rating_is_zero_witness :
  rating.ComputeFinalRating PowDoc rating.sampleTuning rating.zeroStats = 0
  ∧ rating_linear.ComputeFinalRating rating.zeroStats = 0.
Proof.
  destruct (zero_rounds_rating_is_zero PowDoc rating.sampleTuning)
    as (H1 & _ & H3 & _).
  split;
    [apply (H1 rating.zeroStats) | apply (H3 rating.zeroStats)]; reflexivity.
Defined.

(** The guard value 0 of a record without rounds lies below [MinRating]: in
    both implementations the rating of such a record is outside the interval
    of C1. *)
Lemma zero_rounds_rating_below_MinRating :
  rating.inRange
    (rating.ComputeFinalRating PowDoc rating.sampleTuning rating.zeroStats) = false
  ∧ rating.inRange (rating_linear.ComputeFinalRating rating.zeroStats) = false
  ∧ rating.inRange
      (rating.ComputeSideRating PowDoc rating.sampleTuning 0 0 0 0 0 0 0
         rating.noMultiKills 0 0) = false
  ∧ rating.inRange
      (rating_linear.ComputeSideRating 0 0 0 0 0 0 0 rating.noMultiKills 0 0)
    = false.
Proof. vm_compute. repeat split. Qed.

(** A NaN goes through [math.Min] and [math.Max] unchanged, so the clamp
    does not bring it into the interval: a NaN KAST in the linear formula,
    and a negative eco kill value in the component formula (where
    Pow(x, 1.1) is NaN for x < 0), give a NaN rating. *)
Example rating_NaN_not_clamped :
  is_nan (rating_linear.ComputeFinalRating (rating.oneRoundStats nan 1)) = true
  ∧ is_nan (rating.ComputeFinalRating PowDoc rating.sampleTuning
              (rating.oneRoundStats 0.75 (-1))) = true.
Proof. vm_compute. repeat split. Qed.

(** On the sample side the two formulas differ for every [math.Pow] that
    has Pow(0, 0.8) = 0, under the commented weights. *)
Lemma sample_side_differs (Pow : float → float → float) :
  Pow 0 0.8 = 0 →
  (rating.sampleSideRating Pow rating.sampleTuning
   =? rating.ComputeFinalRating Pow rating.sampleTuning rating.sampleSideRecord)
  = false
  ∧ (rating.sampleSideRating Pow rating.sampleTuning
     =? rating.sampleNeutralRating Pow rating.sampleTuning) = false.
Proof.
  intros H. split; vm_compute; rewrite H; vm_compute; reflexivity.
Qed.

(** C5 fails as stated: under the weights that the comments of
    [ComputeFinalRating] give, the per-side rating of the sample side is
    neither the final rating of the record that carries the side's values
    nor the final formula with its four other components at their neutral
    values. *)
Lemma side_rating_differs_from_final :
  (rating.sampleSideRating PowDoc rating.sampleTuning
   =? rating.ComputeFinalRating PowDoc rating.sampleTuning
        rating.sampleSideRecord) = false
  ∧ (rating.sampleSideRating PowDoc rating.sampleTuning
     =? rating.sampleNeutralRating PowDoc rating.sampleTuning) = false.
Proof. apply sample_side_differs. reflexivity. Qed.

End RatingInstances.

(** ** Constants and round structure *)

Section Constants.

Import math.

(** C6. The kill tiers put the attacker's pistol against a rifle (1.80)
    strictly above equal equipment (1.00), and that strictly above a rifle
    against a pistol (0.70); the death tiers put a death to a pistol (1.60)
    strictly above a death on equal equipment (1.00), and that strictly above
    a pistol's death to a rifle (0.70). Both tables are strictly decreasing
    from the weaker winner to the stronger winner. *)
Theorem eco_tiers_ordered :
  (rating.EcoKillEqual <? rating.EcoKillPistolVsRifle)%float = true
  ∧ (rating.EcoKillRifleVsPistol <? rating.EcoKillEqual)%float = true
  ∧ (rating.EcoDeathEqual <? rating.EcoDeathToPistol)%float = true
  ∧ (rating.EcoDeathPistolVsRifle <? rating.EcoDeathEqual)%float = true
  ∧ rating.strictly_decreasing rating.ecoKillTiers = true
  ∧ rating.strictly_decreasing rating.ecoDeathTiers = true
  ∧ rating.EcoKillPistolVsRifle = 1.80%float
  ∧ rating.EcoKillEqual = 1.00%float
  ∧ rating.EcoKillRifleVsPistol = 0.70%float
  ∧ rating.EcoDeathToPistol = 1.60%float
  ∧ rating.EcoDeathEqual = 1.00%float
  ∧ rating.EcoDeathPistolVsRifle = 0.70%float.
Proof. vm_compute. repeat split. Qed.

(** C7. The trade window is five seconds of ticks: 320 = 5 * 64. *)
Theorem trade_window_is_five_seconds :
  rating.TradeWindowTicks = (5 * rating.TickRate)%Z
  ∧ rating.TradeWindowTicks = 320%Z
  ∧ rating.TickRate = 64%Z.
Proof. repeat split. Qed.

Lemma wrap64_in_range (z : Z) :
  (MinInt64 ≤ z ≤ MaxInt64)%Z → wrap64 z = z.
Proof.
  unfold MinInt64, MaxInt64, wrap64.
  change (2 ^ 63)%Z with 9223372036854775808%Z.
  change (2 ^ 64)%Z with 18446744073709551616%Z.
  intros H. rewrite Z.mod_small by lia. lia.
Qed.

(** C9. For a round number of type [int], [IsPistolRound] is true exactly
    on 1, on 13 and on the rounds after 24 that are 25 plus a multiple of 6,
    and false on every other number. *)
Theorem IsPistolRound_spec (n : Z) :
  (MinInt64 ≤ n ≤ MaxInt64)%Z →
  (rating.IsPistolRound n = true
   ↔ n = 1%Z ∨ n = 13%Z ∨ (24 < n ∧ (n - 25) mod 6 = 0)%Z)
  ∧ (rating.IsPistolRound n = false
     ↔ ¬ (n = 1%Z ∨ n = 13%Z ∨ (24 < n ∧ (n - 25) mod 6 = 0)%Z)).
Proof.
  intros Hn.
  assert (rating.IsPistolRound n = true
          ↔ n = 1%Z ∨ n = 13%Z ∨ (24 < n ∧ (n - 25) mod 6 = 0)%Z) as Hiff.
  { unfold rating.IsPistolRound, rating.FirstHalfPistolRound,
      rating.SecondHalfPistolRound, rating.RegulationRounds,
      rating.OvertimeLength.
    unfold MinInt64, MaxInt64 in Hn.
    change (2 ^ 63)%Z with 9223372036854775808%Z in Hn.
    destruct (Z.eqb_spec n 1) as [->|H1]; [simpl; tauto|].
    destruct (Z.eqb_spec n 13) as [->|H13]; [simpl; tauto|].
    destruct (Z.ltb_spec 24 n) as [Hlt|Hge]; simpl.
    - rewrite (wrap64_in_range (n - 24)), (wrap64_in_range (n - 24 - 1));
        try (unfold MinInt64, MaxInt64;
             change (2 ^ 63)%Z with 9223372036854775808%Z; lia).
      rewrite Z.rem_mod_nonneg by lia.
      replace (n - 24 - 1)%Z with (n - 25)%Z by lia.
      destruct (Z.eqb_spec ((n - 25) mod 6) 0) as [E|E].
      + split; [intros _; right; right; split; [lia | exact E] | reflexivity].
      + split; [discriminate | intros [?|[?|[_ ?]]]; congruence].
    - split; [discriminate | intros [?|[?|[? _]]]; [congruence | congruence | lia]]. }
  split; [exact Hiff|].
  rewrite <- Hiff. destruct (rating.IsPistolRound n); split; congruence.
Qed.

Lemma IsPistolRound_spec_witness :
  (rating.IsPistolRound 31 = true
   ↔ 31%Z = 1%Z ∨ 31%Z = 13%Z ∨ (24 < 31 ∧ (31 - 25) mod 6 = 0)%Z)
  ∧ (rating.IsPistolRound 31 = false
     ↔ ¬ (31%Z = 1%Z ∨ 31%Z = 13%Z ∨ (24 < 31 ∧ (31 - 25) mod 6 = 0)%Z)).
Proof. apply (IsPistolRound_spec 31). vm_compute. split; discriminate. Defined.

End Constants.

(** ** More on the advantage tracker *)

Section TrackerRuns.

Import common parser tracker_runs.

Implicit Types (tr : AdvantageTracker) (k v id : N) (s : Team).
Implicit Types (slots : list AdvantageSlot) (es : list Event).

Lemma tracker_eq tr tr' :
  tSlots tr = tSlots tr' → ctSlots tr = ctSlots tr' → tr = tr'.
Proof. destruct tr, tr'; simpl; congruence. Qed.

Lemma tracker_eq_sides tr tr' s :
  getSlots tr s = getSlots tr' s → otherSlots tr s = otherSlots tr' s → tr = tr'.
Proof.
  unfold getSlots, otherSlots. case_decide; intros; by apply tracker_eq.
Qed.

Lemma owners_RecordDeath tr v s :
  PlayerID <$> getSlots (RecordDeath tr v s) s
  = filter (λ x, x ≠ v) (PlayerID <$> drop 1 (getSlots tr s)).
Proof.
  rewrite getSlots_RecordDeath.
  induction (drop 1 (getSlots tr s)) as [|sl l IH]; [done|].
  rewrite fmap_cons, !filter_cons. case_decide; [|done].
  by rewrite fmap_cons, IH.
Qed.

Lemma filter_not_owner v slots :
  v ∉ (PlayerID <$> slots) → filter (λ sl, PlayerID sl ≠ v) slots = slots.
Proof.
  induction slots as [|sl l IH]; [done|].
  rewrite fmap_cons, not_elem_of_cons. intros [Hne Hv].
  rewrite filter_cons_True by congruence. by rewrite IH.
Qed.

(** The ledgers stay sorted by team: from a fresh tracker, whatever the
    sequence of kills, deaths and resets, and whatever sides they are called
    with, a slot stored in [tSlots] has [Side = TeamTerrorists] and a slot
    stored in [ctSlots] has another side. *)
Theorem ledgers_stay_sided es :
  ledgers_sided NewAdvantageTracker
  ∧ (∀ tr e, ledgers_sided tr → ledgers_sided (apply_event tr e))
  ∧ ledgers_sided (run NewAdvantageTracker es).
Proof.
  assert (ledgers_sided NewAdvantageTracker) as H0.
  { split; intros sl Hin; by apply elem_of_nil in Hin. }
  assert (∀ tr e, ledgers_sided tr → ledgers_sided (apply_event tr e)) as Hstep.
  { intros tr e [HT HCT]. destruct e as [k s|v s|]; simpl.
    - rewrite RecordKill_snd. unfold addSlot.
      case_decide as Hs; split; simpl; try done.
      + intros sl [Hin| ->%list_elem_of_singleton]%elem_of_app; [auto | done].
      + intros sl [Hin| ->%list_elem_of_singleton]%elem_of_app; [auto | done].
    - pose proof (getSlots_RecordDeath tr v s) as HD.
      pose proof (otherSlots_RecordDeath tr v s) as HO.
      unfold getSlots, otherSlots in HD, HO.
      unfold ledgers_sided. case_decide as Hs; rewrite HD, HO; split; try done.
      + intros sl [_ Hin]%list_elem_of_filter.
        apply HT. by apply (subseteq_drop 1).
      + intros sl [_ Hin]%list_elem_of_filter.
        apply HCT. by apply (subseteq_drop 1).
    - exact H0. }
  split; [exact H0|]. split; [exact Hstep|].
  unfold run. generalize NewAdvantageTracker H0.
  induction es as [|e es IH]; intros tr Htr; simpl; [done|].
  apply IH. by apply Hstep.
Qed.

Lemma ledgers_stay_sided_witness :
  ledgers_sided (apply_event NewAdvantageTracker (EvKill 7 TeamSpectators)).
Proof.
  apply (ledgers_stay_sided []). apply (ledgers_stay_sided []).
Defined.

(** A player who has just died on side [s] owns no slot there, so the next
    kill on that side, by whoever, does not credit that player. *)
Theorem dead_player_not_credited tr v k s :
  (v ∉ PlayerID <$> getSlots (RecordDeath tr v s) s)
  ∧ (v ∉ (RecordKill (RecordDeath tr v s) k s).1).
Proof.
  assert (v ∉ (PlayerID <$> getSlots (RecordDeath tr v s) s)) as Hv.
  { rewrite owners_RecordDeath, list_elem_of_filter. tauto. }
  split; [exact Hv|].
  rewrite RecordKill_fst, distinct_in_order_elem, list_elem_of_filter. tauto.
Qed.

(** A kill earns credit at the next kill of a teammate and none at the
    killer's own next kill: after [RecordKill tr k s], a kill by another
    player [k'] on side [s] lists [k], while a second kill by [k] returns
    the same beneficiaries as the first. *)
Theorem kill_credited_at_next_teammate_kill tr k k' s :
  (k' ≠ k → k ∈ (RecordKill (RecordKill tr k s).2 k' s).1)
  ∧ (RecordKill (RecordKill tr k s).2 k s).1 = (RecordKill tr k s).1.
Proof.
  rewrite !RecordKill_fst, RecordKill_snd, getSlots_addSlot, !fmap_app. split.
  - intros Hne. rewrite distinct_in_order_elem, list_elem_of_filter, elem_of_app.
    split; [congruence | right; simpl; apply list_elem_of_singleton; done].
  - rewrite filter_app. simpl.
    rewrite (filter_cons_False (λ x, x ≠ k) k) by (intros H; by apply H).
    by rewrite filter_nil, app_nil_r.
Qed.

Lemma kill_credited_at_next_teammate_kill_witness :
  4%N ∈ (RecordKill (RecordKill NewAdvantageTracker 4 TeamTerrorists).2 5
           TeamTerrorists).1.
Proof.
  apply (kill_credited_at_next_teammate_kill NewAdvantageTracker 4 5
           TeamTerrorists).
  discriminate.
Defined.

Lemma length_RecordKill_slots tr k s :
  length (getSlots (RecordKill tr k s).2 s) = S (length (getSlots tr s)).
Proof. rewrite RecordKill_snd, getSlots_addSlot, length_app. simpl. lia. Qed.

Lemma length_RecordDeath_slots tr v s :
  length (getSlots (RecordDeath tr v s) s) ≤ pred (length (getSlots tr s)).
Proof.
  rewrite getSlots_RecordDeath.
  pose proof (length_filter (λ sl, PlayerID sl ≠ v) (drop 1 (getSlots tr s))).
  rewrite length_drop in *. lia.
Qed.

(** Slot accounting on the side of the call: a kill adds exactly one slot; a
    death removes at least one slot when there is one, exactly one when the
    victim owns no slot behind the head, and never adds any. *)
Theorem slot_count_per_call tr k v s :
  length (getSlots (RecordKill tr k s).2 s) = S (length (getSlots tr s))
  ∧ length (getSlots (RecordDeath tr v s) s) ≤ pred (length (getSlots tr s))
  ∧ (v ∉ (PlayerID <$> drop 1 (getSlots tr s)) →
     length (getSlots (RecordDeath tr v s) s) = pred (length (getSlots tr s))).
Proof.
  split; [apply length_RecordKill_slots|].
  split; [apply length_RecordDeath_slots|].
  intros Hv. rewrite getSlots_RecordDeath, filter_not_owner by done.
  rewrite length_drop. lia.
Qed.

Lemma slot_count_per_call_witness :
  length (getSlots (RecordDeath sampleTracker 9 TeamTerrorists) TeamTerrorists)
  = 2.
Proof.
  apply (slot_count_per_call sampleTracker 0 9 TeamTerrorists).
  simpl. rewrite !not_elem_of_cons.
  repeat split; try discriminate. apply not_elem_of_nil.
Defined.

Lemma slots_apply_event tr e :
  length (tSlots (apply_event tr e)) + length (ctSlots (apply_event tr e))
  ≤ length (tSlots tr) + length (ctSlots tr) + (if isKill e then 1 else 0).
Proof.
  destruct e as [k s|v s|]; simpl.
  - pose proof (length_RecordKill_slots tr k s) as Hk.
    pose proof (otherSlots_addSlot tr s {| PlayerID := k; Side := s |}) as HO.
    rewrite RecordKill_snd in *. unfold getSlots, otherSlots in *.
    case_decide; rewrite Hk, HO; lia.
  - pose proof (length_RecordDeath_slots tr v s) as Hd.
    pose proof (otherSlots_RecordDeath tr v s) as HO.
    unfold getSlots, otherSlots in *. case_decide; rewrite HO; lia.
  - lia.
Qed.

(** Along any sequence of calls the two ledgers together never hold more
    slots than they held at the start plus the number of kills recorded. *)
Theorem slots_bounded_by_kills tr es :
  length (tSlots (run tr es)) + length (ctSlots (run tr es))
  ≤ length (tSlots tr) + length (ctSlots tr) + kills es.
Proof.
  unfold run, kills. revert tr.
  induction es as [|e es IH]; intros tr; simpl; [lia|].
  specialize (IH (apply_event tr e)).
  pose proof (slots_apply_event tr e) as He.
  destruct (isKill e) eqn:Hk.
  - rewrite filter_cons_True by done. simpl. lia.
  - rewrite filter_cons_False by congruence. lia.
Qed.

(** Calls on the T ledger and calls on the CT ledger do not see each other:
    for [s = TeamTerrorists] and any other side [s'], a kill or death on
    [s] commutes with a kill or death on [s'], and the beneficiaries of a
    kill on [s] are the same before and after a call on [s']. *)
Theorem sides_are_independent tr k v k' v' s s' :
  s = TeamTerrorists → s' ≠ TeamTerrorists →
  RecordDeath (RecordKill tr k s).2 v' s' = (RecordKill (RecordDeath tr v' s') k s).2
  ∧ RecordDeath (RecordKill tr k' s').2 v s = (RecordKill (RecordDeath tr v s) k' s').2
  ∧ (RecordKill (RecordKill tr k s).2 k' s').2 = (RecordKill (RecordKill tr k' s').2 k s).2
  ∧ RecordDeath (RecordDeath tr v s) v' s' = RecordDeath (RecordDeath tr v' s') v s
  ∧ (RecordKill (RecordDeath tr v' s') k s).1 = (RecordKill tr k s).1
  ∧ (RecordKill (RecordKill tr k' s').2 k s).1 = (RecordKill tr k s).1
  ∧ (RecordKill (RecordDeath tr v s) k' s').1 = (RecordKill tr k' s').1
  ∧ (RecordKill (RecordKill tr k s).2 k' s').1 = (RecordKill tr k' s').1.
Proof.
  intros -> Hs'.
  rewrite !RecordKill_fst, !RecordKill_snd.
  unfold RecordDeath, removePlayerSlots, setSlots, addSlot, getSlots.
  rewrite !(decide_True (P := TeamTerrorists = TeamTerrorists)) by done.
  rewrite !(decide_False (P := s' = TeamTerrorists)) by done.
  destruct tr as [ts cts]. simpl.
  repeat split; repeat case_decide; simpl;
    rewrite ?(decide_False (P := s' = TeamTerrorists)) by done;
    rewrite ?(decide_True (P := TeamTerrorists = TeamTerrorists)) by done;
    first [reflexivity | simpl in *; lia].
Qed.

Lemma sides_are_independent_witness :
  RecordDeath (RecordKill NewAdvantageTracker 1 TeamTerrorists).2 2
    TeamCounterTerrorists
  = (RecordKill (RecordDeath NewAdvantageTracker 2 TeamCounterTerrorists) 1
       TeamTerrorists).2.
Proof.
  apply (sides_are_independent NewAdvantageTracker 1 0 0 2 TeamTerrorists
           TeamCounterTerrorists); [reflexivity | discriminate].
Defined.

(** On a side without slots a death changes nothing in the tracker and a
    kill credits nobody; after [Reset] this holds for both sides. *)
Theorem empty_ledger_calls tr k v s :
  (getSlots tr s = [] →
   RecordDeath tr v s = tr ∧ (RecordKill tr k s).1 = [])
  ∧ RecordDeath (Reset tr) v s = NewAdvantageTracker
  ∧ (RecordKill (Reset tr) k s).1 = []
  ∧ getSlots (RecordKill (Reset tr) k s).2 s = [{| PlayerID := k; Side := s |}].
Proof.
  assert (∀ tr0, getSlots tr0 s = [] →
            RecordDeath tr0 v s = tr0 ∧ (RecordKill tr0 k s).1 = []) as H.
  { intros tr0 Hnil. split.
    - apply (tracker_eq_sides _ _ s).
      + by rewrite getSlots_RecordDeath, Hnil.
      + apply otherSlots_RecordDeath.
    - by rewrite RecordKill_fst, Hnil. }
  split; [apply H|].
  assert (getSlots (Reset tr) s = []) as Hr.
  { unfold getSlots, Reset. by case_decide. }
  destruct (H (Reset tr) Hr) as [HD HK].
  split; [by rewrite HD|]. split; [exact HK|].
  by rewrite RecordKill_snd, getSlots_addSlot, Hr.
Qed.

Lemma empty_ledger_calls_witness :
  RecordDeath sampleTracker 3 TeamCounterTerrorists = sampleTracker
  ∧ (RecordKill sampleTracker 4 TeamCounterTerrorists).1 = [].
Proof.
  apply (empty_ledger_calls sampleTracker 4 3 TeamCounterTerrorists).
  reflexivity.
Defined.

(** [removePlayerSlots] keeps, in order, exactly the slots of the side that
    the player does not own; it changes nothing when the player owns none,
    doing it twice is doing it once, and removals of two players commute. *)
Theorem removePlayerSlots_filter tr v v' s :
  getSlots (removePlayerSlots tr v s) s
    = filter (λ sl, PlayerID sl ≠ v) (getSlots tr s)
  ∧ otherSlots (removePlayerSlots tr v s) s = otherSlots tr s
  ∧ (v ∉ (PlayerID <$> getSlots tr s) → removePlayerSlots tr v s = tr)
  ∧ removePlayerSlots (removePlayerSlots tr v s) v s = removePlayerSlots tr v s
  ∧ removePlayerSlots (removePlayerSlots tr v s) v' s
    = removePlayerSlots (removePlayerSlots tr v' s) v s.
Proof.
  split; [apply getSlots_removePlayerSlots|].
  split; [apply otherSlots_removePlayerSlots|].
  split; [|split].
  - intros Hv. apply (tracker_eq_sides _ _ s).
    + rewrite getSlots_removePlayerSlots. by apply filter_not_owner.
    + apply otherSlots_removePlayerSlots.
  - apply (tracker_eq_sides _ _ s).
    + rewrite !getSlots_removePlayerSlots. by rewrite list_filter_filter_l.
    + by rewrite !otherSlots_removePlayerSlots.
  - apply (tracker_eq_sides _ _ s).
    + rewrite !getSlots_removePlayerSlots, !list_filter_filter.
      apply list_filter_iff. tauto.
    + by rewrite !otherSlots_removePlayerSlots.
Qed.

Lemma removePlayerSlots_filter_witness :
  removePlayerSlots sampleTracker 5 TeamTerrorists = sampleTracker.
Proof.
  destruct (removePlayerSlots_filter sampleTracker 5 0 TeamTerrorists)
    as (_ & _ & H & _).
  apply H. simpl. rewrite !not_elem_of_cons.
  repeat split; try discriminate. apply not_elem_of_nil.
Defined.

End TrackerRuns.

(** ** More order facts on binary64 values *)

Section FloatOrderMore.

Local Open Scope float_scope.

Lemma SFltb_trans (a b c : spec_float) :
  SFltb a b = true → SFltb b c = true → SFltb a c = true.
Proof.
  unfold SFltb.
  destruct a as [sa|sa| |sa ma ea], b as [sb|sb| |sb mb eb],
    c as [sc|sc| |sc mc ec]; simpl; try done;
    try (by destruct sa); try (by destruct sb); try (by destruct sc);
    try (by destruct sa, sb); try (by destruct sb, sc);
    try (by destruct sa, sc); try (by destruct sa, sb, sc).
  change (Pos.compare_cont Eq ma mb) with (ma ?= mb)%positive.
  change (Pos.compare_cont Eq mb mc) with (mb ?= mc)%positive.
  change (Pos.compare_cont Eq ma mc) with (ma ?= mc)%positive.
  destruct sa, sb, sc; simpl; try done;
    destruct (Z.compare_spec ea eb), (Z.compare_spec eb ec),
      (Z.compare_spec ea ec); simpl; try done; try lia;
    destruct (Pos.compare_spec ma mb), (Pos.compare_spec mb mc),
      (Pos.compare_spec ma mc); simpl; try done; lia.
Qed.

Lemma ltb_trans (x y z : float) :
  (x <? y) = true → (y <? z) = true → (x <? z) = true.
Proof. rewrite !ltb_spec. apply SFltb_trans. Qed.

Lemma ltb_asym (x y : float) : (x <? y) = true → (y <? x) = false.
Proof.
  rewrite !ltb_spec. unfold SFltb.
  rewrite (SFcompare_antisym (Prim2SF x) (Prim2SF y)).
  by destruct (SFcompare (Prim2SF x) (Prim2SF y)) as [[]|].
Qed.

Lemma leb_ltb_false (x y : float) : (x <=? y) = true → (y <? x) = false.
Proof.
  rewrite ltb_spec, leb_spec. unfold SFltb, SFleb.
  rewrite (SFcompare_antisym (Prim2SF x) (Prim2SF y)).
  by destruct (SFcompare (Prim2SF x) (Prim2SF y)) as [[]|].
Qed.

Lemma ltb_not_nan (x y : float) :
  (x <? y) = true → is_nan x = false ∧ is_nan y = false.
Proof.
  rewrite ltb_spec. unfold SFltb. intros H.
  split; apply not_true_is_false; intros Hn%is_nan_spec; rewrite Hn in H;
    simpl in H; [done|]. by destruct (Prim2SF x).
Qed.

Lemma leb_not_nan (x y : float) :
  (x <=? y) = true → is_nan x = false ∧ is_nan y = false.
Proof.
  rewrite leb_spec. unfold SFleb. intros H.
  split; apply not_true_is_false; intros Hn%is_nan_spec; rewrite Hn in H;
    simpl in H; [done|]. by destruct (Prim2SF x).
Qed.

Lemma leb_refl (x : float) : is_nan x = false → (x <=? x) = true.
Proof.
  intros Hx. apply ltb_false_leb; try done.
  destruct (x <? x) eqn:E; [|done]. by rewrite (ltb_asym x x E) in E.
Qed.

Lemma is_nan_cmp (x y : float) :
  is_nan x = true →
  (x =? y) = false ∧ (x <? y) = false ∧ (y <? x) = false.
Proof.
  intros Hn%is_nan_spec. rewrite eqb_spec, !ltb_spec.
  unfold SFeqb, SFltb. rewrite Hn. simpl. by destruct (Prim2SF y).
Qed.

Lemma eqb_neg_infinity_ltb (x c : float) :
  (x =? neg_infinity) = true → is_nan c = false →
  (c =? neg_infinity) = false → (x <? c) = true.
Proof.
  rewrite !eqb_spec, ltb_spec. intros Hx Hc Hci.
  assert (Prim2SF c ≠ S754_nan) as Hnan.
  { intros Hn%is_nan_spec. congruence. }
  change (Prim2SF neg_infinity) with (S754_infinity true) in *.
  unfold SFeqb, SFltb in *.
  destruct (Prim2SF x) as [s|[]| |[] m e]; simpl in Hx; try discriminate.
  destruct (Prim2SF c) as [s|[]| |[] m e]; simpl in *; done.
Qed.

Lemma neg_infinity_leb (c : float) :
  is_nan c = false → (neg_infinity <=? c) = true.
Proof.
  intros Hc. rewrite leb_spec.
  assert (Prim2SF c ≠ S754_nan) as Hnan.
  { intros Hn%is_nan_spec. congruence. }
  change (Prim2SF neg_infinity) with (S754_infinity true).
  unfold SFleb. by destruct (Prim2SF c) as [s|[]| |[] m e].
Qed.

End FloatOrderMore.

(** ** The clamps of the component formula *)

Section Clamps.

Import math model.
Local Open Scope float_scope.

Lemma Min_bound (hi x : float) :
  is_nan hi = false → (hi =? 0) = false → (hi =? neg_infinity) = false →
  Min hi x
  = if x =? neg_infinity then neg_infinity
    else if is_nan x then nan
    else if hi <? x then hi
    else x.
Proof. intros H1 H2 H3. unfold Min. by rewrite H1, H2, H3. Qed.

Lemma Max_bound (lo y : float) :
  is_nan lo = false → (lo =? 0) = false → (lo =? infinity) = false →
  Max lo y
  = if y =? infinity then infinity
    else if is_nan y then nan
    else if y <? lo then lo
    else y.
Proof. intros H1 H2 H3. unfold Max. by rewrite H1, H2, H3. Qed.

(** What a clamp returns: NaN on NaN, the upper bound above it, the lower
    bound below it, and the value itself in between. *)
Lemma clamp_cases (lo hi x : float) :
  clampBounds lo hi →
  (is_nan x = true → is_nan (Max lo (Min hi x)) = true)
  ∧ ((hi <? x) = true → Max lo (Min hi x) = hi)
  ∧ ((x <? lo) = true → Max lo (Min hi x) = lo)
  ∧ ((lo <=? x) = true → (x <=? hi) = true → Max lo (Min hi x) = x).
Proof.
  intros (Hlo & Hhi & Hlo0 & Hhi0 & Hloi & Hhii & Hlon & Hhin & Hle).
  rewrite (Min_bound hi x Hhi Hhi0 Hhin).
  assert (Max lo hi = hi) as Hmax_hi.
  { rewrite (Max_bound lo hi Hlo Hlo0 Hloi), Hhii, Hhi.
    by rewrite (leb_ltb_false lo hi Hle). }
  assert (Max lo neg_infinity = lo) as Hmax_ninf.
  { rewrite (Max_bound lo _ Hlo Hlo0 Hloi).
    change (neg_infinity =? infinity) with false.
    change (is_nan neg_infinity) with false. cbv iota.
    by rewrite (eqb_neg_infinity_ltb neg_infinity lo). }
  split; [|split; [|split]].
  - intros Hx. destruct (is_nan_cmp x neg_infinity Hx) as (-> & _ & _).
    rewrite Hx. rewrite (Max_bound lo nan Hlo Hlo0 Hloi). reflexivity.
  - intros Hx. destruct (ltb_not_nan hi x Hx) as [_ Hxn].
    destruct (x =? neg_infinity) eqn:E.
    { pose proof (eqb_neg_infinity_ltb x hi E Hhi Hhin) as Hc.
      by rewrite (ltb_asym hi x Hx) in Hc. }
    by rewrite Hxn, Hx.
  - intros Hx. destruct (ltb_not_nan x lo Hx) as [Hxn _].
    destruct (x =? neg_infinity) eqn:E; [done|].
    rewrite Hxn.
    destruct (hi <? x) eqn:E2.
    { pose proof (ltb_trans hi x lo E2 Hx) as Hc.
      by rewrite (leb_ltb_false lo hi Hle) in Hc. }
    rewrite (Max_bound lo x Hlo Hlo0 Hloi), Hxn, Hx.
    destruct (x =? infinity) eqn:E3; [|done].
    pose proof (eqb_infinity_ltb x lo E3 Hlo Hloi) as Hc.
    by rewrite (ltb_asym x lo Hx) in Hc.
  - intros Hx1 Hx2. destruct (leb_not_nan lo x Hx1) as [_ Hxn].
    destruct (x =? neg_infinity) eqn:E.
    { pose proof (eqb_neg_infinity_ltb x lo E Hlo Hlon) as Hc.
      by rewrite (leb_ltb_false lo x Hx1) in Hc. }
    rewrite Hxn, (leb_ltb_false x hi Hx2).
    rewrite (Max_bound lo x Hlo Hlo0 Hloi), Hxn, (leb_ltb_false lo x Hx1).
    destruct (x =? infinity) eqn:E3; [|done].
    pose proof (eqb_infinity_ltb x hi E3 Hhi Hhii) as Hc.
    by rewrite (leb_ltb_false x hi Hx2) in Hc.
Qed.

(** A clamp returns NaN or a value between its bounds. *)
Lemma clamp_nanOrWithin (lo hi x : float) :
  clampBounds lo hi → rating.nanOrWithin lo hi (Max lo (Min hi x)) = true.
Proof.
  intros HB. pose proof HB as (Hlo & Hhi & _ & _ & _ & _ & _ & _ & Hle).
  destruct (clamp_cases lo hi x HB) as (Hnan & Hup & Hdown & Hmid).
  unfold rating.nanOrWithin.
  destruct (is_nan x) eqn:Hx; [by rewrite Hnan|].
  destruct (hi <? x) eqn:E1.
  { rewrite Hup by done. by rewrite Hhi, Hle, (leb_refl hi Hhi). }
  destruct (x <? lo) eqn:E2.
  { rewrite Hdown by done. by rewrite Hlo, Hle, (leb_refl lo Hlo). }
  rewrite Hmid, Hx by (by apply ltb_false_leb).
  by rewrite (ltb_false_leb x lo), (ltb_false_leb hi x).
Qed.

Ltac clamp_bounds := unfold clampBounds; split_and!; reflexivity.

Variable Pow : float → float → float.
Variable K : rating.Tuning.

(** The five clamped components of the final formula, and the two of the
    per-side formula, are NaN or lie within the bounds written at their
    clamp, for every record and every round count: death rating in
    [0.3, 1.9], swing rating in [0.6, 1.4], opening rating in [0.5, 1.6],
    trade rating in [0.6, 1.5], utility rating in [0.5, 1.4]. *)
Theorem clamped_components_within_bounds :
  (∀ p rounds,
     let c := rating.finalParts Pow K p rounds in
     rating.nanOrWithin 0.3 1.9 (rating.deathRating (rating.perSide c)) = true
     ∧ rating.nanOrWithin 0.6 1.4 (rating.swingRating (rating.perSide c)) = true
     ∧ rating.nanOrWithin 0.5 1.6 (rating.openingRating c) = true
     ∧ rating.nanOrWithin 0.6 1.5 (rating.tradeRating c) = true
     ∧ rating.nanOrWithin 0.5 1.4 (rating.utilityRating c) = true)
  ∧ (∀ roundsF kills deaths damage eco swing kast mk cr cw,
       let c := rating.sideParts Pow K roundsF kills deaths damage eco swing
                  kast mk cr cw in
       rating.nanOrWithin 0.3 1.9 (rating.deathRating c) = true
       ∧ rating.nanOrWithin 0.6 1.4 (rating.swingRating c) = true).
Proof.
  split.
  - intros p rounds. unfold rating.finalParts. cbv zeta.
    cbn [rating.perSide rating.deathRating rating.swingRating
         rating.openingRating rating.tradeRating rating.utilityRating].
    split; [apply clamp_nanOrWithin; clamp_bounds|].
    split; [apply clamp_nanOrWithin; clamp_bounds|].
    split; [|split; apply clamp_nanOrWithin; clamp_bounds].
    destruct (0 <? OpeningAttempts p)%Z; [|reflexivity].
    apply clamp_nanOrWithin; clamp_bounds.
  - intros *. unfold rating.sideParts. cbv zeta.
    cbn [rating.deathRating rating.swingRating].
    split; apply clamp_nanOrWithin; clamp_bounds.
Qed.

(** The guarded quotients: without opening attempts the opening rating is
    the neutral 1.0, without clutch rounds the clutch modifier is 0, and
    without an AWP death the AWP penalty is 0, whatever the other fields
    and the round count are. *)
Theorem components_without_events p rounds :
  let c := rating.finalParts Pow K p rounds in
  ((OpeningAttempts p ≤ 0)%Z → rating.openingRating c = 1.0)
  ∧ ((ClutchRounds p ≤ 0)%Z → rating.clutchModifier (rating.perSide c) = 0)
  ∧ ((AWPDeathsNoKill p ≤ 0)%Z → rating.awpPenalty c = 0).
Proof.
  unfold rating.finalParts. cbv zeta.
  cbn [rating.perSide rating.clutchModifier rating.openingRating
       rating.awpPenalty].
  split; [|split]; intros H.
  - destruct (Z.ltb_spec 0 (OpeningAttempts p)); [lia | reflexivity].
  - destruct (Z.ltb_spec 0 (ClutchRounds p)); [lia | reflexivity].
  - destruct (Z.ltb_spec 0 (AWPDeathsNoKill p)); [lia | reflexivity].
Qed.

Lemma ratingBounds : clampBounds rating.MinRating rating.MaxRating.
Proof. clamp_bounds. Qed.

(** The rating of the component formula is its weighted sum clamped: for a
    round count that passes the guard, the result is NaN exactly when the
    sum is, [MaxRating] when the sum is above it, [MinRating] when the sum
    is below it, and the sum itself otherwise. The same holds for the
    per-side rating and its sum. *)
Theorem rating_is_clamped_sum :
  (∀ p,
     (float64 (RoundsPlayed p) =? 0) = false →
     let sum := rating.finalSum K
                  (rating.finalParts Pow K p (float64 (RoundsPlayed p))) in
     let r := rating.ComputeFinalRating Pow K p in
     is_nan r = is_nan sum
     ∧ ((rating.MaxRating <? sum) = true → r = rating.MaxRating)
     ∧ ((sum <? rating.MinRating) = true → r = rating.MinRating)
     ∧ ((rating.MinRating <=? sum) = true → (sum <=? rating.MaxRating) = true →
        r = sum))
  ∧ (∀ rounds kills deaths damage eco swing kast mk cr cw,
       (float64 rounds =? 0) = false →
       let sum := rating.sideSum
                    (rating.sideParts Pow K (float64 rounds) kills deaths
                       damage eco swing kast mk cr cw) in
       let r := rating.ComputeSideRating Pow K rounds kills deaths damage eco
                  swing kast mk cr cw in
       is_nan r = is_nan sum
       ∧ ((rating.MaxRating <? sum) = true → r = rating.MaxRating)
       ∧ ((sum <? rating.MinRating) = true → r = rating.MinRating)
       ∧ ((rating.MinRating <=? sum) = true → (sum <=? rating.MaxRating) = true →
          r = sum)).
Proof.
  assert (∀ x,
            is_nan (Max rating.MinRating (Min rating.MaxRating x)) = is_nan x)
    as Hnan.
  { intros x.
    destruct (clamp_cases _ _ x ratingBounds) as (Hn & Hup & Hdown & Hmid).
    destruct (is_nan x) eqn:Hx; [by apply Hn|].
    destruct (rating.MaxRating <? x) eqn:E1; [by rewrite Hup|].
    destruct (x <? rating.MinRating) eqn:E2; [by rewrite Hdown|].
    rewrite Hmid; [done | by apply ltb_false_leb | by apply ltb_false_leb]. }
  split.
  - intros p H. cbv zeta. rewrite (final_clamped Pow K p H).
    split; [apply Hnan|]. apply (clamp_cases _ _ _ ratingBounds).
  - intros * H. cbv zeta. rewrite (side_clamped Pow K _ _ _ _ _ _ _ _ _ _ H).
    split; [apply Hnan|]. apply (clamp_cases _ _ _ ratingBounds).
Qed.

End Clamps.

Section ClampInstances.

Import math model.
Local Open Scope float_scope.

Lemma rating_is_clamped_sum_witness :
  is_nan (rating.ComputeFinalRating PowDoc rating.sampleTuning
            rating.sampleSideRecord)
  = is_nan (rating.finalSum rating.sampleTuning
              (rating.finalParts PowDoc rating.sampleTuning
                 rating.sampleSideRecord
                 (float64 (RoundsPlayed rating.sampleSideRecord)))).
Proof.
  destruct (rating_is_clamped_sum PowDoc rating.sampleTuning) as [H _].
  apply (H rating.sampleSideRecord). vm_compute. reflexivity.
Defined.

Lemma components_without_events_witness :
  rating.openingRating
    (rating.finalParts PowDoc rating.sampleTuning rating.sampleSideRecord 10)
  = 1.0.
Proof.
  apply (components_without_events PowDoc rating.sampleTuning
           rating.sampleSideRecord 10).
  vm_compute. discriminate.
Defined.

End ClampInstances.

(** ** Integer facts: the multi-kill sum and the pistol rounds *)

Section IntegerFacts.

Import math model.

Lemma wrap64_eqm (a b : Z) :
  (a mod 2 ^ 64 = b mod 2 ^ 64)%Z → wrap64 a = wrap64 b.
Proof.
  intros H. unfold wrap64. f_equal.
  by rewrite (Zplus_mod a), (Zplus_mod b), H.
Qed.

Lemma wrap64_mod (z : Z) : (wrap64 z mod 2 ^ 64 = z mod 2 ^ 64)%Z.
Proof.
  unfold wrap64. rewrite Zminus_mod, Zmod_mod, <- Zminus_mod.
  f_equal. lia.
Qed.

Lemma wrap64_add (a b : Z) : wrap64 (wrap64 a + wrap64 b) = wrap64 (a + b).
Proof.
  apply wrap64_eqm. by rewrite Zplus_mod, !wrap64_mod, <- Zplus_mod.
Qed.

Lemma sumLoop_closed m w :
  rating.sumLoop m w
  = wrap64 (h2 m * h2 w + h3 m * h3 w + h4 m * h4 w + h5 m * h5 w).
Proof.
  rewrite sumLoop_unfold, Z.add_0_l.
  rewrite (wrap64_eqm _ _ (wrap64_mod (h2 m * h2 w))).
  rewrite (wrap64_add (h2 m * h2 w) (h3 m * h3 w)).
  rewrite (wrap64_add (h2 m * h2 w + h3 m * h3 w) (h4 m * h4 w)).
  by rewrite (wrap64_add (h2 m * h2 w + h3 m * h3 w + h4 m * h4 w)
               (h5 m * h5 w)).
Qed.

(** [sumMulti] is the weighted count 2k + 3 * 3k + 7 * 4k + 15 * 5k reduced
    to 64 bits, and the linear implementation's is twice that count reduced
    to 64 bits. For counts between 0 and 2^56 nothing wraps: the sums are
    exact, not negative, and the linear one is the double of the other. *)
Theorem sumMulti_closed_form m :
  let n := (h2 m + 3 * h3 m + 7 * h4 m + 15 * h5 m)%Z in
  rating.sumMulti m = wrap64 n
  ∧ rating_linear.sumMulti m = wrap64 (2 * n)
  ∧ ((0 ≤ h2 m ≤ 2 ^ 56)%Z → (0 ≤ h3 m ≤ 2 ^ 56)%Z →
     (0 ≤ h4 m ≤ 2 ^ 56)%Z → (0 ≤ h5 m ≤ 2 ^ 56)%Z →
     rating.sumMulti m = n
     ∧ rating_linear.sumMulti m = (2 * rating.sumMulti m)%Z
     ∧ (0 ≤ rating.sumMulti m)%Z).
Proof.
  cbv zeta. unfold rating.sumMulti, rating_linear.sumMulti.
  rewrite !sumLoop_closed.
  cbn [h2 h3 h4 h5 rating.weights rating_linear.weights].
  split; [f_equal; lia|]. split; [f_equal; lia|].
  change (2 ^ 56)%Z with 72057594037927936%Z.
  intros H2 H3 H4 H5.
  rewrite !wrap64_in_range;
    try (unfold MinInt64, MaxInt64;
         change (2 ^ 63)%Z with 9223372036854775808%Z; lia).
Qed.

Lemma sumMulti_closed_form_witness :
  rating.sumMulti (mkHist6 9 9 3 1 0 1) = 21%Z
  ∧ rating_linear.sumMulti (mkHist6 9 9 3 1 0 1)
    = (2 * rating.sumMulti (mkHist6 9 9 3 1 0 1))%Z
  ∧ (0 ≤ rating.sumMulti (mkHist6 9 9 3 1 0 1))%Z.
Proof.
  destruct (sumMulti_closed_form (mkHist6 9 9 3 1 0 1)) as (_ & _ & H).
  apply H; vm_compute; split; discriminate.
Defined.

Lemma IsPistolRound_unfold (n : Z) :
  (MinInt64 ≤ n ≤ MaxInt64)%Z →
  rating.IsPistolRound n
  = (n =? 1)%Z || (n =? 13)%Z || ((24 <? n)%Z && ((n - 25) mod 6 =? 0)%Z).
Proof.
  intros Hn.
  unfold rating.IsPistolRound, rating.FirstHalfPistolRound,
    rating.SecondHalfPistolRound, rating.RegulationRounds,
    rating.OvertimeLength.
  unfold MinInt64, MaxInt64 in Hn.
  change (2 ^ 63)%Z with 9223372036854775808%Z in Hn.
  destruct ((n =? 1)%Z || (n =? 13)%Z); [done|]. simpl.
  destruct (Z.ltb_spec 24 n) as [Hlt|Hge]; simpl; [|done].
  rewrite (wrap64_in_range (n - 24)), (wrap64_in_range (n - 24 - 1));
    try (unfold MinInt64, MaxInt64;
         change (2 ^ 63)%Z with 9223372036854775808%Z; lia).
  rewrite Z.rem_mod_nonneg by lia.
  replace (n - 24 - 1)%Z with (n - 25)%Z by lia.
  by destruct ((n - 25) mod 6 =? 0)%Z.
Qed.

(** Pistol rounds repeat every [OvertimeLength] rounds in overtime and only
    there: from round 25 on, round [n + 6] is a pistol round exactly when
    round [n] is; up to round 24 the only pistol rounds are 1 and 13, and no
    round number below 1 is one. *)
Theorem IsPistolRound_overtime_period (n : Z) :
  (MinInt64 ≤ n)%Z → (n + rating.OvertimeLength ≤ MaxInt64)%Z →
  ((rating.RegulationRounds < n)%Z →
   rating.IsPistolRound (n + rating.OvertimeLength) = rating.IsPistolRound n)
  ∧ ((n ≤ rating.RegulationRounds)%Z →
     rating.IsPistolRound n = (n =? 1)%Z || (n =? 13)%Z)
  ∧ ((n < 1)%Z → rating.IsPistolRound n = false).
Proof.
  unfold rating.OvertimeLength, rating.RegulationRounds, MinInt64, MaxInt64.
  change (2 ^ 63)%Z with 9223372036854775808%Z.
  intros Hlo Hhi.
  assert (∀ z, (-9223372036854775808 ≤ z ≤ 9223372036854775807)%Z →
               (MinInt64 ≤ z ≤ MaxInt64)%Z) as Hr.
  { intros z Hz. unfold MinInt64, MaxInt64.
    by change (2 ^ 63)%Z with 9223372036854775808%Z. }
  rewrite (IsPistolRound_unfold n), (IsPistolRound_unfold (n + 6))
    by (apply Hr; lia).
  split; [|split].
  - intros Hn.
    replace (n + 6 - 25)%Z with ((n - 25) + 1 * 6)%Z by lia.
    rewrite Z_mod_plus_full.
    destruct (Z.eqb_spec n 1), (Z.eqb_spec n 13), (Z.eqb_spec (n + 6) 1),
      (Z.eqb_spec (n + 6) 13), (Z.ltb_spec 24 n), (Z.ltb_spec 24 (n + 6));
      simpl; try lia; reflexivity.
  - intros Hn. destruct (Z.ltb_spec 24 n); [lia|]. simpl.
    by rewrite orb_false_r.
  - intros Hn.
    destruct (Z.eqb_spec n 1), (Z.eqb_spec n 13), (Z.ltb_spec 24 n);
      simpl; try lia; reflexivity.
Qed.

Lemma IsPistolRound_overtime_period_witness :
  rating.IsPistolRound (25 + rating.OvertimeLength) = rating.IsPistolRound 25.
Proof.
  apply (IsPistolRound_overtime_period 25); vm_compute;
    first [discriminate | reflexivity].
Defined.

Variable Pow : float → float → float.
Variable K : rating.Tuning.

(** Arguments that the per-side entry points take and never read: the
    component formula ignores [kills] (it rates kills through
    [ecoKillValue]), and the linear formula ignores [ecoKillValue],
    [clutchRounds] and [clutchWins]. *)
Theorem side_rating_unread_arguments
    rounds kills deaths damage eco swing kast mk cr cw :
  (∀ kills',
     rating.ComputeSideRating Pow K rounds kills' deaths damage eco swing kast
       mk cr cw
     = rating.ComputeSideRating Pow K rounds kills deaths damage eco swing
         kast mk cr cw)
  ∧ (∀ eco' cr' cw',
       rating_linear.ComputeSideRating rounds kills deaths damage eco' swing
         kast mk cr' cw'
       = rating_linear.ComputeSideRating rounds kills deaths damage eco swing
           kast mk cr cw).
Proof.
  split.
  - intros kills'. unfold rating.ComputeSideRating, rating.sideParts.
    reflexivity.
  - intros eco' cr' cw'. unfold rating_linear.ComputeSideRating. reflexivity.
Qed.

End IntegerFacts.

(** ** The sheet export *)

Section SheetExport.

Import output.
Local Open Scope string_scope.

(** The rows are compared by a strict order: no row comes before itself,
    two rows never come before each other, and the comparison is
    transitive. A row of a better tier comes first whatever the ratings
    are. A tier name outside the six of the table ranks 0, with "premier". *)
Theorem less_is_strict_order (p q r : AggregatedStats) :
  less p p = false
  ∧ (less p q = true → less q p = false)
  ∧ (less p q = true → less q r = true → less p r = true)
  ∧ ((tierRank (Tier p) < tierRank (Tier q))%Z → less p q = true)
  ∧ (Tier p ∉ ["premier"; "elite"; "challenger"; "contender"; "prospect";
               "recruit"] →
     tierRank (Tier p) = tierRank "premier").
Proof.
  unfold less. cbv zeta.
  split; [|split; [|split; [|split]]].
  - rewrite Z.eqb_refl. simpl.
    destruct (FinalRating p <? FinalRating p)%float eqn:E; [|done].
    by rewrite (ltb_asym _ _ E) in E.
  - destruct (Z.eqb_spec (tierRank (Tier p)) (tierRank (Tier q))) as [E|E];
      simpl.
    + rewrite <- E, Z.eqb_refl. simpl. apply ltb_asym.
    + destruct (Z.eqb_spec (tierRank (Tier q)) (tierRank (Tier p))); simpl;
        [congruence|].
      intros H%Z.ltb_lt. apply Z.ltb_ge. lia.
  - destruct (Z.eqb_spec (tierRank (Tier p)) (tierRank (Tier q))) as [E1|E1],
      (Z.eqb_spec (tierRank (Tier q)) (tierRank (Tier r))) as [E2|E2],
      (Z.eqb_spec (tierRank (Tier p)) (tierRank (Tier r))) as [E3|E3];
      simpl; rewrite ?Z.ltb_lt; try lia.
    intros H1 H2. by apply (ltb_trans _ _ _ H2 H1).
  - intros H.
    destruct (Z.eqb_spec (tierRank (Tier p)) (tierRank (Tier q))); simpl;
      [lia | by apply Z.ltb_lt].
  - intros Hp. unfold tierRank at 1, tierOrder.
    rewrite (not_elem_of_list_to_map_1 _ (Tier p)); [reflexivity|].
    exact Hp.
Qed.

Lemma less_is_strict_order_witness :
  less (mkAggregatedStats "elite" 0.5%float None None)
       (mkAggregatedStats "recruit" 2.5%float None None) = true.
Proof.
  destruct (less_is_strict_order
              (mkAggregatedStats "elite" 0.5%float None None)
              (mkAggregatedStats "recruit" 2.5%float None None)
              (mkAggregatedStats "recruit" 2.5%float None None))
    as (_ & _ & _ & H & _).
  apply H. vm_compute. reflexivity.
Defined.

(** A map column shows the stored value when the player has one for that
    map, a stored zero included, and the empty string when the map of the
    player is nil or has no entry for that map; a value put into the map is
    the value shown. *)
Theorem map_columns (p : AggregatedStats) (mapName : string) :
  (∀ rating, getMapRating p mapName = CellFloat rating
             ↔ ∃ ratings, MapRatings p = Some ratings
                          ∧ ratings !! mapName = Some rating)
  ∧ (getMapRating p mapName = CellString ""
     ↔ ∀ ratings, MapRatings p = Some ratings → ratings !! mapName = None)
  ∧ (∀ games, getMapGames p mapName = CellInt games
              ↔ ∃ played, MapGamesPlayed p = Some played
                          ∧ played !! mapName = Some games)
  ∧ (getMapGames p mapName = CellString ""
     ↔ ∀ played, MapGamesPlayed p = Some played → played !! mapName = None)
  ∧ (∀ ratings rating other,
       MapRatings p = Some (<[mapName := rating]> ratings) →
       getMapRating p mapName = CellFloat rating
       ∧ (other ≠ mapName →
          ratings !! other = None → getMapRating p other = CellString "")).
Proof.
  unfold getMapRating, getMapGames.
  split; [|split; [|split; [|split]]].
  - intros rating. destruct (MapRatings p) as [ratings|].
    + destruct (ratings !! mapName) as [x|] eqn:E; split.
      * intros [= ->]. eauto.
      * intros (m & [= <-] & Hm). congruence.
      * discriminate.
      * intros (m & [= <-] & Hm). congruence.
    + split; [discriminate | intros (m & Hm & _); discriminate].
  - destruct (MapRatings p) as [ratings|].
    + destruct (ratings !! mapName) as [x|] eqn:E; split.
      * discriminate.
      * intros H. specialize (H ratings eq_refl). congruence.
      * intros _ m [= <-]. exact E.
      * reflexivity.
    + split; [intros _ m; discriminate | reflexivity].
  - intros games. destruct (MapGamesPlayed p) as [played|].
    + destruct (played !! mapName) as [x|] eqn:E; split.
      * intros [= ->]. eauto.
      * intros (m & [= <-] & Hm). congruence.
      * discriminate.
      * intros (m & [= <-] & Hm). congruence.
    + split; [discriminate | intros (m & Hm & _); discriminate].
  - destruct (MapGamesPlayed p) as [played|].
    + destruct (played !! mapName) as [x|] eqn:E; split.
      * discriminate.
      * intros H. specialize (H played eq_refl). congruence.
      * intros _ m [= <-]. exact E.
      * reflexivity.
    + split; [intros _ m; discriminate | reflexivity].
  - intros ratings rating other ->. rewrite lookup_insert_eq.
    split; [reflexivity|]. intros Hne Hnone.
    by rewrite lookup_insert_ne, Hnone.
Qed.

Lemma map_columns_witness :
  getMapRating
    (mkAggregatedStats "elite" 1.0%float
       (Some (<["de_nuke" := 0%float]> ∅)) None) "de_nuke"
  = CellFloat 0%float.
Proof.
  destruct (map_columns
              (mkAggregatedStats "elite" 1.0%float
                 (Some (<["de_nuke" := 0%float]> ∅)) None) "de_nuke")
    as (_ & _ & _ & _ & H).
  apply (H ∅ 0%float "de_dust2"). reflexivity.
Defined.

End SheetExport.

(** ** The third kill of a round *)

Section ThirdKill.

Import common parser tracker_runs.

(** After kills by 11 and by 12 on a fresh T ledger, a third kill by 11
    credits 12 only, since the killer is left out; and on a ledger that
    already holds slots of players 1, 2 and 3, a third kill by 13 credits
    those three before 11 and 12. In neither case is the result [[A; B]]. *)
Lemma third_kill_beneficiaries_not_always_A_B :
  (RecordKill
     (RecordKill (RecordKill NewAdvantageTracker 11 TeamTerrorists).2 12
        TeamTerrorists).2 11 TeamTerrorists).1 = [12%N]
  ∧ (RecordKill
       (RecordKill (RecordKill NewAdvantageTracker 11 TeamTerrorists).2 12
          TeamTerrorists).2 11 TeamTerrorists).1 ≠ [11%N; 12%N]
  ∧ (RecordKill
       (RecordKill (RecordKill sampleTracker 11 TeamTerrorists).2 12
          TeamTerrorists).2 13 TeamTerrorists).1 = [1%N; 2%N; 3%N; 11%N; 12%N]
  ∧ (RecordKill
       (RecordKill (RecordKill sampleTracker 11 TeamTerrorists).2 12
          TeamTerrorists).2 13 TeamTerrorists).1 ≠ [11%N; 12%N].
Proof. vm_compute. repeat split; discriminate. Qed.

End ThirdKill.
